(** * compact_jobs_dashboard.py: data preparation and aggregation

    A shallow embedding of the pipeline of [compact_jobs_dashboard.py]:
    [load_data], the KPI expressions of [main] and the data that
    [create_chart1] .. [create_chart8] hand to the plotting layer.

    Modelling decisions
    - A pandas cell is [NaN], a number or a string.  Numbers are exact
      rationals ([Qc]); float64 rounding, overflow and infinities are outside
      the model.
    - A [DataFrame] is its row count and a finite map from column names to
      columns; [df['c']] is a lookup that raises [KeyError] when [c] is absent.
    - Python exceptions are values of [exn]; code that can raise lives in the
      [result] monad, and code that also writes to the Streamlit page lives in
      the [script] monad (the page written so far, and how the run ended).
    - What pandas leaves to its sorting routine (the order of equal keys) is a
      parameter: the class [Pandas] states the contract, and [stable_pandas]
      and [reversing_pandas] are two instances.
    - Layout markup, colours and the drawing of the charts are left out: a
      chart is the data it is drawn from. *)

From Stdlib Require Import QArith Qcanon Qround Qabs Lqa.
From Stdlib Require Import String Ascii List Permutation Sorted.
From stdpp Require Import gmap strings list numbers sorting pretty.

(* stdpp's solvers clear hypotheses that may already be gone. *)
#[local] Set Warnings "-clear-no-such-hyp".

Local Open Scope string_scope.
Local Open Scope list_scope.
Local Open Scope nat_scope.

(** ** Cells, exceptions, results *)

Inductive cell : Type :=
| NaN
| Num (x : Qc)
| Str (s : string).

Global Instance cell_eq_dec : EqDecision cell.
Proof. solve_decision. Defined.

Definition qc (z : Z) : Qc := Q2Qc (inject_Z z).

Inductive exn : Type :=
| KeyError (key : string)
| TypeError
| IndexError
| ZeroDivisionError
| StopException.

Global Instance exn_eq_dec : EqDecision exn.
Proof. solve_decision. Defined.

Inductive result (A : Type) : Type :=
| Ok (a : A)
| Raise (e : exn).
Arguments Ok {A} a.
Arguments Raise {A} e.

Global Instance result_ret : MRet result := @Ok.
Global Instance result_bind : MBind result := λ A B k r,
  match r with Ok a => k a | Raise e => Raise e end.

Global Instance result_eq_dec {A} `{EqDecision A} : EqDecision (result A).
Proof. solve_decision. Defined.

(** [mapM f l]: apply [f] left to right, stop at the first exception. *)
Fixpoint mapM {A B} (f : A → result B) (l : list A) : result (list B) :=
  match l with
  | [] => Ok []
  | a :: l' => b ← f a; bs ← mapM f l'; Ok (b :: bs)
  end.

(** ** Data frames *)

Record DataFrame : Type := mkFrame {
  nrows : nat;
  columns : gmap string (list cell)
}.

(** Every column of a frame spans the frame's index. *)
Definition frame_wf (df : DataFrame) : Prop :=
  map_Forall (λ _ col, length col = nrows df) (columns df).

(** [df[c]] *)
Definition getitem (df : DataFrame) (c : string) : result (list cell) :=
  match columns df !! c with
  | Some col => Ok col
  | None => Raise (KeyError c)
  end.

(** [df[c] = col] *)
Definition setitem (df : DataFrame) (c : string) (col : list cell) : DataFrame :=
  mkFrame (nrows df) (<[c := col]> (columns df)).

(** ** Element-wise arithmetic of pandas

    A missing operand gives a missing result; two numbers are added; two
    strings are concatenated; a number and a string raise [TypeError]. *)
Definition cell_add (a b : cell) : result cell :=
  match a, b with
  | NaN, _ | _, NaN => Ok NaN
  | Num x, Num y => Ok (Num (x + y)%Qc)
  | Str s, Str t => Ok (Str (String.append s t))
  | _, _ => Raise TypeError
  end.

Definition cell_div (a : cell) (d : Qc) : result cell :=
  match a with
  | NaN => Ok NaN
  | Num x => Ok (Num (x / d)%Qc)
  | Str _ => Raise TypeError
  end.

(** [a + b] on two columns of one frame (same index). *)
Definition series_add (a b : list cell) : result (list cell) :=
  mapM (λ p, cell_add p.1 p.2) (zip a b).

(** [a / d] for a scalar [d]. *)
Definition series_div (a : list cell) (d : Qc) : result (list cell) :=
  mapM (λ c, cell_div c d) a.

(** ** [categorize_experience] (nested in [load_data]) *)

Definition Fresher : string := "Fresher (0-1 years)".
Definition Entry : string := "Entry Level (1-3 years)".
Definition Mid : string := "Mid Level (3-5 years)".
Definition Senior : string := "Senior Level (5-10 years)".
Definition Expert : string := "Expert Level (10+ years)".

(** [exp <= k]: false when [exp] is NaN, [TypeError] on a string. *)
Definition cell_le (exp : cell) (k : Z) : result bool :=
  match exp with
  | NaN => Ok false
  | Num x => Ok (bool_decide (x ≤ qc k)%Qc)
  | Str _ => Raise TypeError
  end.

Definition categorize_experience (exp : cell) : result cell :=
  c1 ← cell_le exp 1;
  if c1 : bool then Ok (Str Fresher) else
  c3 ← cell_le exp 3;
  if c3 : bool then Ok (Str Entry) else
  c5 ← cell_le exp 5;
  if c5 : bool then Ok (Str Mid) else
  c10 ← cell_le exp 10;
  if c10 : bool then Ok (Str Senior) else
  Ok (Str Expert).

(** ** The Streamlit page *)

(** What each chart function hands to the plotting layer.  For the word
    cloud it is the text given to [WordCloud.generate], or nothing when the
    placeholder is drawn. *)
Inductive figure : Type :=
| Chart1 (title_counts : list (cell * nat))
| Chart2 (city_counts : list (cell * nat))
| Chart3 (wordcloud : option string)
| Chart6 (labels : list string) (company_salary : list (cell * option Qc))
| Chart8 (fresher_exp : list (cell * nat)).

Global Instance figure_eq_dec : EqDecision figure.
Proof. solve_decision. Defined.

Inductive element : Type :=
| StError (msg : string)
| Header
| Metric (label : string) (value : cell)
| Pyplot (fig : figure)
| Footer.

Global Instance element_eq_dec : EqDecision element.
Proof. solve_decision. Defined.

(** A script run: what it has written to the page, and how it ended. *)
Definition script (A : Type) : Type := list element * result A.

Global Instance script_eq_dec {A} `{EqDecision A} : EqDecision (script A).
Proof. unfold script. apply _. Defined.

Global Instance script_ret : MRet script := λ A a, ([], Ok a).
Global Instance script_bind : MBind script := λ A B k m,
  match m.2 with
  | Ok a => let r := k a in ((m.1 ++ r.1)%list, r.2)
  | Raise e => (m.1, Raise e)
  end.

Definition emit (e : element) : script unit := ([e], Ok tt).
Definition lift {A} (r : result A) : script A := ([], r).

(** [st.stop()] ends the run. *)
Definition st_stop {A} : script A := ([], Raise StopException).

(** ** [load_data] *)

(** What [pd.read_excel(sheet_url)] does: it raises (the sheet cannot be
    fetched or parsed) or it returns a frame. *)
Inductive read_excel : Type :=
| ReadRaises (e : string)
| ReadReturns (df : DataFrame).

(** Lines 73-84 of [load_data]: the derived columns.  The caching decorator
    changes nothing in what a run computes and is left out. *)
Definition add_derived (df : DataFrame) : result DataFrame :=
  lo ← getitem df "minimumSalary";
  hi ← getitem df "maximumSalary";
  s ← series_add lo hi;
  avg ← series_div s (qc 2);
  let df := setitem df "avgSalary" avg in
  lo ← getitem df "minimumExperience";
  hi ← getitem df "maximumExperience";
  s ← series_add lo hi;
  avg ← series_div s (qc 2);
  let df := setitem df "avgExperience" avg in
  exps ← getitem df "avgExperience";
  cats ← mapM categorize_experience exps;
  Ok (setitem df "experienceCategory" cats).

Definition load_data (sheet : read_excel) : script DataFrame :=
  match sheet with
  | ReadRaises e =>
      emit (StError (String.append "Failed to load data from Google Sheets: " e));;
      st_stop
  | ReadReturns df => lift (add_derived df)
  end.

(** ** The part of pandas and Python that the script relies on

    [sort_by le l] is the library's sorting routine: it returns the elements
    of [l] in an order in which [le] holds from left to right.  The order of
    elements that [le] does not separate is the routine's own business
    ([sort_values] defaults to a quicksort).  [str_float] is Python's [str]
    on a float. *)
Class Pandas : Type := {
  sort_by : ∀ {A : Type}, (A → A → bool) → list A → list A;
  sort_by_perm : ∀ {A} (le : A → A → bool) (l : list A), sort_by le l ≡ₚ l;
  sort_by_sorted : ∀ {A} (le : A → A → bool) (l : list A),
    (∀ x y, le x y = true ∨ le y x = true) →
    (∀ x y z, le x y = true → le y z = true → le x z = true) →
    StronglySorted (λ x y, le x y = true) (sort_by le l);
  str_float : Qc → string
}.

(** A float64 that cannot be a string: [None] is NaN. *)
Definition float : Type := option Qc.

Definition of_float (x : float) : cell :=
  match x with Some q => Num q | None => NaN end.

(** Values in order of first appearance, each once (the hash table behind
    [value_counts] and [groupby]). *)
Fixpoint unique (l : list cell) : list cell :=
  match l with
  | [] => []
  | x :: l' => x :: filter (λ y, y ≠ x) (unique l')
  end.

Definition count_of (x : cell) (l : list cell) : nat :=
  length (filter (λ y, y = x) l).

(** [Series.dropna()] *)
Definition dropna (l : list cell) : list cell := filter (λ c, c ≠ NaN) l.

(** The numbers of a column, missing cells skipped. *)
Fixpoint numbers (l : list cell) : result (list Qc) :=
  match l with
  | [] => Ok []
  | NaN :: l' => numbers l'
  | Num x :: l' => xs ← numbers l'; Ok (x :: xs)
  | Str _ :: _ => Raise TypeError
  end.

Definition Qc_sum (xs : list Qc) : Qc := foldr Qcplus 0%Qc xs.

(** [Series.mean()]: the mean of the cells that are present, NaN if none. *)
Definition series_mean (l : list cell) : result float :=
  xs ← numbers l;
  Ok (match xs with
      | [] => None
      | _ => Some (Qc_sum xs / qc (Z.of_nat (length xs)))%Qc
      end).

(** [round(0)]: to the nearest integer, halves to the even one. *)
Definition round_half_even (x : Qc) : Qc :=
  let f := Qfloor x in
  let r := (x - qc f)%Qc in
  if bool_decide (r < Q2Qc (1 # 2))%Qc then qc f
  else if bool_decide (Q2Qc (1 # 2) < r)%Qc then qc (f + 1)
  else if Z.even f then qc f else qc (f + 1).

Definition float_round (x : float) : float := round_half_even <$> x.

(** Descending order of counts. *)
Definition count_ge (a b : cell * nat) : bool := bool_decide (b.2 ≤ a.2).

(** Descending order of values, NaN last ([na_position='last']). *)
Definition value_ge (a b : cell * float) : bool :=
  match a.2, b.2 with
  | _, None => true
  | None, Some _ => false
  | Some x, Some y => bool_decide (y ≤ x)%Qc
  end.

(** Ascending order of group keys: numbers before strings. *)
Definition key_le (a b : cell) : bool :=
  match a, b with
  | NaN, _ => true
  | _, NaN => false
  | Num x, Num y => bool_decide (x ≤ y)%Qc
  | Num _, Str _ => true
  | Str _, Num _ => false
  | Str s, Str t => String.leb s t
  end.

(** ** Text: [str.lower], [re.findall(r'\b\w+\b', _)], [' '.join]

    Exact on ASCII text; a character above 127 is kept as it is and is not a
    word character. *)
Definition is_upper (c : ascii) : bool :=
  let n := nat_of_ascii c in (65 <=? n)%nat && (n <=? 90)%nat.

Definition is_word_char (c : ascii) : bool :=
  let n := nat_of_ascii c in
  ((48 <=? n)%nat && (n <=? 57)%nat) || ((65 <=? n)%nat && (n <=? 90)%nat)
  || ((97 <=? n)%nat && (n <=? 122)%nat) || (n =? 95)%nat.


Definition lower_char (c : ascii) : ascii :=
  if is_upper c then ascii_of_nat (nat_of_ascii c + 32) else c.

Fixpoint lower (s : string) : string :=
  match s with
  | EmptyString => EmptyString
  | String c s' => String (lower_char c) (lower s')
  end.

Definition is_word_opt (c : option ascii) : bool :=
  match c with Some c => is_word_char c | None => false end.

Definition first_char (s : string) : option ascii :=
  match s with EmptyString => None | String c _ => Some c end.

(** [\b] between the characters [a] and [b] (absent at either end of the
    text). *)
Definition boundary (a b : option ascii) : bool :=
  xorb (is_word_opt a) (is_word_opt b).

(** [\w+], greedy: the longest prefix of word characters, last character
    first, and the text after it. *)
Fixpoint word_prefix (acc : list ascii) (s : string) : list ascii * string :=
  match s with
  | EmptyString => (acc, s)
  | String c s' => if is_word_char c then word_prefix (c :: acc) s' else (acc, s)
  end.

(** The closing [\b], with backtracking: give back characters of the greedy
    match until the position is a boundary. *)
Fixpoint backtrack (taken : list ascii) (rest : string) : option (string * string) :=
  match taken with
  | [] => None
  | c :: taken' =>
      if boundary (Some c) (first_char rest)
      then Some (string_of_list_ascii (rev taken), rest)
      else backtrack taken' (String c rest)
  end.

(** One attempt at the position after [prev]: the match and the text after
    it. *)
Definition match_here (prev : option ascii) (s : string) : option (string * string) :=
  if boundary prev (first_char s)
  then let '(taken, rest) := word_prefix [] s in backtrack taken rest
  else None.

Definition last_char (w : string) : option ascii := last (list_ascii_of_string w).

(** [re.findall]: matches from left to right; after a match the scan goes on
    where the match ended, after a failure one character further. *)
Fixpoint scan (fuel : nat) (prev : option ascii) (s : string) : list string :=
  match fuel with
  | 0 => []
  | S fuel =>
      match match_here prev s with
      | Some (w, rest) => w :: scan fuel (last_char w) rest
      | None =>
          match s with
          | EmptyString => []
          | String c s' => scan fuel (Some c) s'
          end
      end
  end.

Definition re_findall (s : string) : list string := scan (S (String.length s)) None s.

Example re_findall_example :
  re_findall "C++, node.js & machine_learning" = ["C"; "node"; "js"; "machine_learning"].
Proof. reflexivity. Qed.

Definition stop_words : list string :=
  ["and"; "or"; "the"; "a"; "an"; "in"; "on"; "at"; "to"; "for"; "of"; "with";
   "by"; "is"; "are"; "was"; "were"; "be"; "been"; "being"; "have"; "has";
   "had"; "do"; "does"; "did"; "will"; "would"; "could"; "should"; "may";
   "might"; "must"; "can"; "shall"; "skills"; "skill"; "experience";
   "required"; "years"; "year"; "work"].

Section Dashboard.
Context `{Pandas}.

(** [Series.value_counts()]: the values that are present, each with the
    number of its cells, in descending order of that number. *)
Definition value_counts (col : list cell) : list (cell * nat) :=
  let vals := dropna col in
  sort_by count_ge (map (λ k, (k, count_of k vals)) (unique vals)).

(** [head(n)] *)
Definition head {A} (n : nat) (l : list A) : list A := take n l.

(** [.index[0]] *)
Definition index0 {A} (s : list (cell * A)) : result cell :=
  match s with
  | [] => Raise IndexError
  | (k, _) :: _ => Ok k
  end.

(** [df.groupby(by)[col].mean()]: rows without a key are dropped, the groups
    come in ascending order of their key. *)
Definition groupby_mean (keys vals : list cell) : result (list (cell * float)) :=
  let rows := filter (λ r, r.1 ≠ NaN) (zip keys vals) in
  let ks := sort_by key_le (unique rows.*1) in
  mapM (λ k, m ← series_mean (filter (λ r, r.1 = k) rows).*2; Ok (k, m)) ks.

(** [str(text)] on a cell that is present. *)
Definition str (c : cell) : string :=
  match c with
  | Str s => s
  | Num x => str_float x
  | NaN => "nan"
  end.

(** Lines 91-94 of [create_wordcloud]: the words handed to the word cloud. *)
Definition skill_words (text_data : list cell) : list string :=
  let all_text := String.concat " " (map str (filter (λ c, c ≠ NaN) text_data)) in
  let words := re_findall (lower all_text) in
  filter (λ word, (word ∉ stop_words) ∧ 2 < String.length word) words.

Definition create_wordcloud (text_data : list cell) : option string :=
  match text_data with
  | [] => None
  | _ =>
      match skill_words text_data with
      | [] => None
      | words => Some (String.concat " " words)
      end
  end.

Definition create_chart1 (df : DataFrame) : result figure :=
  title ← getitem df "title";
  let title_counts := head 10 (value_counts title) in
  Ok (Chart1 title_counts).

Definition create_chart2 (df : DataFrame) : result figure :=
  location ← getitem df "location";
  let city_counts := head 10 (value_counts location) in
  Ok (Chart2 city_counts).

Definition create_chart3 (df : DataFrame) : result figure :=
  tags ← getitem df "tagsAndSkills";
  let skills_text := dropna tags in
  let wordcloud := create_wordcloud skills_text in
  Ok (Chart3 wordcloud).

(** Lines 160-161 of [create_chart6]: the series [company_salary]. *)
Definition company_salary (df : DataFrame) : result (list (cell * float)) :=
  keys ← getitem df "companyName";
  vals ← getitem df "avgSalary";
  means ← groupby_mean keys vals;
  let company_salary := prod_map id float_round <$> means in
  Ok (head 10 (sort_by value_ge company_salary)).

(** [name[:15] + '...' if len(name) > 15 else name]; [len] of a number
    raises. *)
Definition tick_label (name : cell) : result string :=
  match name with
  | Str s => Ok (if decide (15 < String.length s)
                 then String.append (substring 0 15 s) "..." else s)
  | _ => Raise TypeError
  end.

Definition create_chart6 (df : DataFrame) : result figure :=
  company_salary ← company_salary df;
  labels ← mapM tick_label company_salary.*1;
  Ok (Chart6 labels company_salary).

Definition create_chart8 (df : DataFrame) : result figure :=
  cats ← getitem df "experienceCategory";
  let fresher_exp := value_counts cats in
  Ok (Chart8 fresher_exp).

(** The expression of [main] behind the "Fresher Jobs" KPI. *)
Definition fresher_pct (df : DataFrame) : result Qc :=
  cats ← getitem df "experienceCategory";
  let freshers := length (filter (λ c, c = Str Fresher) cats) in
  if decide (nrows df = 0) then Raise ZeroDivisionError
  else Ok (qc (Z.of_nat freshers) / qc (Z.of_nat (nrows df)) * qc 100)%Qc.

Definition float_div (x : float) (d : Qc) : float := (λ q, q / d)%Qc <$> x.

Definition main (sheet : read_excel) : script unit :=
  df ← load_data sheet;
  emit Header;;
  emit (Metric "Total Jobs" (Num (qc (Z.of_nat (nrows df)))));;
  avg_salary ← lift (getitem df "avgSalary" ≫= series_mean);
  emit (Metric "Avg Salary" (of_float (float_div avg_salary (qc 1000))));;
  avg_exp ← lift (getitem df "avgExperience" ≫= series_mean);
  emit (Metric "Avg Exp (yrs)" (of_float avg_exp));;
  top_city ← lift (location ← getitem df "location"; index0 (value_counts location));
  emit (Metric "Top City" top_city);;
  pct ← lift (fresher_pct df);
  emit (Metric "Fresher Jobs" (Num pct));;
  fig1 ← lift (create_chart1 df);
  emit (Pyplot fig1);;
  fig2 ← lift (create_chart2 df);
  emit (Pyplot fig2);;
  fig3 ← lift (create_chart3 df);
  emit (Pyplot fig3);;
  fig6 ← lift (create_chart6 df);
  emit (Pyplot fig6);;
  fig8 ← lift (create_chart8 df);
  emit (Pyplot fig8);;
  emit Footer.

End Dashboard.

(** ** Two sorting routines that meet the contract *)

Section InsertionSort.
Context {A : Type} (le : A → A → bool).

Fixpoint insert_sorted (x : A) (l : list A) : list A :=
  match l with
  | [] => [x]
  | y :: l' => if le x y then x :: l else y :: insert_sorted x l'
  end.

(** Stable: of two elements that [le] does not separate, the one that comes
    first in [l] comes first in the result. *)
Definition insertion_sort (l : list A) : list A := foldr insert_sorted [] l.

Lemma insert_sorted_perm x l : insert_sorted x l ≡ₚ x :: l.
Proof.
  induction l as [|y l IH]; simpl; [done|].
  destruct (le x y); [done|]. rewrite IH. apply perm_swap.
Qed.

Lemma insertion_sort_perm l : insertion_sort l ≡ₚ l.
Proof.
  induction l as [|x l IH]; simpl; [done|].
  by rewrite insert_sorted_perm, IH.
Qed.

Hypothesis le_total : ∀ x y, le x y = true ∨ le y x = true.
Hypothesis le_trans : ∀ x y z, le x y = true → le y z = true → le x z = true.

Lemma insert_sorted_sorted x l :
  StronglySorted (λ a b, le a b = true) l →
  StronglySorted (λ a b, le a b = true) (insert_sorted x l).
Proof.
  induction 1 as [|y l Hs IH Hy]; simpl.
  - repeat constructor.
  - destruct (le x y) eqn:Hxy.
    + constructor; [by constructor|].
      constructor; [done|].
      eapply Forall_impl; [exact Hy|]. intros z Hz. by eapply le_trans.
    + constructor; [done|].
      rewrite insert_sorted_perm. constructor; [|done].
      destruct (le_total x y); congruence.
Qed.

Lemma insertion_sort_sorted l :
  StronglySorted (λ a b, le a b = true) (insertion_sort l).
Proof.
  induction l as [|x l IH]; simpl; [constructor|].
  by apply insert_sorted_sorted.
Qed.

End InsertionSort.


(** Python's [str] on a float, for the instances: the integer part and one
    decimal, which is what Python prints for whole numbers and halves. *)
Definition str_decimal (x : Qc) : string :=
  let a := Qabs (this x) in
  let f := Qfloor a in
  let d := Qfloor ((a - inject_Z f) * 10) in
  String.append (if bool_decide (x < 0)%Qc then "-" else "")
    (String.append (pretty f) (String.append "." (pretty d))).

(** Ties keep the order of first appearance. *)
Program Instance stable_pandas : Pandas := {|
  sort_by A le l := insertion_sort le l;
  str_float := str_decimal
|}.
Next Obligation. intros. apply insertion_sort_perm. Qed.
Next Obligation. intros. by apply insertion_sort_sorted. Qed.


(** * Vocabulary of the statements *)

(** ** Rows and derived cells *)



(** ** Experience categories *)

(** The five bands, lowest first. *)
Definition labels : list string := [Fresher; Entry; Mid; Senior; Expert].



(** ** Counts, ties and groups *)

(** The table that [value_counts] sorts. *)
Definition tally (col : list cell) : list (cell * nat) :=
  map (λ k, (k, count_of k (dropna col))) (unique (dropna col)).

(** The position at which [k] first appears in [l]. *)
Definition first_appearance (k : cell) (l : list cell) : option nat :=
  fst <$> list_find (λ y, y = k) l.

(** The tie rule of the specification: of two entries with the same count,
    the one whose title appears first in the table comes first. *)
Definition ties_by_first_appearance (title : list cell) (tc : list (cell * nat)) : Prop :=
  ∀ i j a b p q, i < j → tc !! i = Some a → tc !! j = Some b → a.2 = b.2 →
    first_appearance a.1 title = Some p → first_appearance b.1 title = Some q →
    p < q.



(** A cell of a float column: a number or NaN. *)
Definition numeric (c : cell) : Prop := ∀ s, c ≠ Str s.

Section Groups.
Context `{Pandas}.


End Groups.

(** ** Exceptions of the load *)

(** The exceptions of the derivation: a column is absent, or a bound is text. *)
Definition load_exn (e : exn) : Prop := e = TypeError ∨ ∃ c, e = KeyError c.

(** The columns that [load_data] reads. *)
Definition bound_columns : list string :=
  ["minimumSalary"; "maximumSalary"; "minimumExperience"; "maximumExperience"].

(** ** Words *)

(** The run that ends here, if one is being read. *)
Definition flush (run : string) : list string :=
  match run with EmptyString => [] | _ => [run] end.

(** The maximal runs of word characters of [s], left to right; [run] is the
    run being read.  This is what the pattern amounts to. *)
Fixpoint runs (run : string) (s : string) : list string :=
  match s with
  | EmptyString => flush run
  | String c s' =>
      if is_word_char c then runs (String.append run (String c EmptyString)) s'
      else (flush run ++ runs EmptyString s')%list
  end.

Definition word_runs (s : string) : list string := runs EmptyString s.

(** The characters of a word. *)
Definition chars (s : string) : list ascii := list_ascii_of_string s.

(** The test of line 94. *)
Definition kept (word : string) : Prop :=
  (word ∉ stop_words) ∧ 2 < String.length word.

Section Words.
Context `{Pandas}.

(** The words that one cell of the skills column contributes. *)
Definition cell_words (c : cell) : list string :=
  filter kept (lower <$> word_runs (str c)).

End Words.

(** ** The load, the bands and the page *)

(** The columns that [load_data] adds. *)
Definition derived_columns : list string :=
  ["avgSalary"; "avgExperience"; "experienceCategory"].


(** The position in [labels] of the band of [x]. *)
Definition band_index (x : Qc) : nat :=
  if bool_decide (x ≤ qc 1)%Qc then 0
  else if bool_decide (x ≤ qc 3)%Qc then 1
  else if bool_decide (x ≤ qc 5)%Qc then 2
  else if bool_decide (x ≤ qc 10)%Qc then 3
  else 4.

(** A cell with its text in lower case. *)
Definition lower_cell (c : cell) : cell :=
  match c with Str s => Str (lower s) | _ => c end.

Section PageVocabulary.
Context `{Pandas}.

(** The expression of [main] behind the "Top City" KPI. *)
Definition top_city (df : DataFrame) : result cell :=
  location ← getitem df "location";
  index0 (value_counts location).

(** Lines 201-290 of [main]: the page for a loaded table. *)
Definition render (df : DataFrame) : script unit :=
  emit Header;;
  emit (Metric "Total Jobs" (Num (qc (Z.of_nat (nrows df)))));;
  avg_salary ← lift (getitem df "avgSalary" ≫= series_mean);
  emit (Metric "Avg Salary" (of_float (float_div avg_salary (qc 1000))));;
  avg_exp ← lift (getitem df "avgExperience" ≫= series_mean);
  emit (Metric "Avg Exp (yrs)" (of_float avg_exp));;
  top_city ← lift (top_city df);
  emit (Metric "Top City" top_city);;
  pct ← lift (fresher_pct df);
  emit (Metric "Fresher Jobs" (Num pct));;
  fig1 ← lift (create_chart1 df);
  emit (Pyplot fig1);;
  fig2 ← lift (create_chart2 df);
  emit (Pyplot fig2);;
  fig3 ← lift (create_chart3 df);
  emit (Pyplot fig3);;
  fig6 ← lift (create_chart6 df);
  emit (Pyplot fig6);;
  fig8 ← lift (create_chart8 df);
  emit (Pyplot fig8);;
  emit Footer.

End PageVocabulary.

(** A run that shows no error box and does not end by [st.stop()]. *)
Definition quiet (m : script unit) : Prop :=
  (∀ msg, StError msg ∉ m.1) ∧ m.2 ≠ Raise StopException.

(** ** Sample sheets *)

(** The three rows of the specification's end-to-end scenario, with company
    names and skills added. *)
Definition sample_sheet : DataFrame := mkFrame 3 (list_to_map [
  ("title", [Str "A"; Str "A"; Str "B"]);
  ("companyName", [Str "Acme"; Str "Bolt"; Str "Hush"]);
  ("location", [Str "X"; Str "Y"; Str "X"]);
  ("tagsAndSkills", [Str "Python, SQL skills"; NaN; Str "machine_learning and AWS"]);
  ("minimumSalary", [Num (qc 1000); Num (qc 3000); NaN]);
  ("maximumSalary", [Num (qc 2000); Num (qc 5000); NaN]);
  ("minimumExperience", [Num (qc 0); Num (qc 2); Num (qc 11)]);
  ("maximumExperience", [Num (qc 1); Num (qc 4); Num (qc 13)])]).

(** The sample sheet as [load_data] returns it. *)
Definition sample_table : DataFrame :=
  match add_derived sample_sheet with
  | Ok df => df
  | Raise _ => sample_sheet
  end.

(** A sheet with the eight columns and no row. *)
Definition empty_sheet : DataFrame := mkFrame 0 (list_to_map [
  ("title", []); ("companyName", []); ("location", []); ("tagsAndSkills", []);
  ("minimumSalary", []); ("maximumSalary", []);
  ("minimumExperience", []); ("maximumExperience", [])]).

(** The empty sheet as [load_data] returns it. *)
Definition empty_table : DataFrame :=
  match add_derived empty_sheet with
  | Ok df => df
  | Raise _ => empty_sheet
  end.

(** The sample sheet without its [title] column. *)
Definition untitled_sheet : DataFrame :=
  mkFrame 3 (delete "title" (columns sample_sheet)).


(** * Properties *)

(** ** Inversion of the monadic code *)

Lemma bind_Ok {A B} (r : result A) (k : A → result B) (b : B) :
  r ≫= k = Ok b → ∃ a, r = Ok a ∧ k a = Ok b.
Proof. destruct r as [a|e]; [eauto|discriminate]. Qed.

Ltac inv_bind H :=
  repeat match type of H with
  | _ ≫= _ = Ok _ =>
      let a := fresh "v" in let Ha := fresh "Hv" in let H' := fresh in
      destruct (bind_Ok _ _ _ H) as (a & Ha & H'); clear H; rename H' into H;
      cbv beta zeta in H
  end.

Lemma getitem_Ok df c col : getitem df c = Ok col ↔ columns df !! c = Some col.
Proof. unfold getitem. destruct (columns df !! c); naive_solver. Qed.

Lemma getitem_setitem_ne df c c' col :
  c ≠ c' → getitem (setitem df c col) c' = getitem df c'.
Proof. intros Hne. unfold getitem, setitem. simpl. by rewrite lookup_insert_ne. Qed.

Lemma getitem_setitem_eq df c col : getitem (setitem df c col) c = Ok col.
Proof. unfold getitem, setitem. simpl. by rewrite lookup_insert_eq. Qed.

Lemma mapM_cons_Ok {A B} (f : A → result B) a l l' :
  mapM f (a :: l) = Ok l' →
  ∃ b bs, f a = Ok b ∧ mapM f l = Ok bs ∧ l' = b :: bs.
Proof.
  simpl. destruct (f a) as [b|]; [|discriminate].
  destruct (mapM f l) as [bs|]; [|discriminate].
  simpl. intros [= <-]. eauto.
Qed.

Lemma mapM_Ok_Forall2 {A B} (f : A → result B) l l' :
  mapM f l = Ok l' → Forall2 (λ a b, f a = Ok b) l l'.
Proof.
  revert l'. induction l as [|a l IH]; intros l' Hm.
  - inversion Hm. constructor.
  - apply mapM_cons_Ok in Hm as (b & bs & Hb & Hbs & ->). constructor; auto.
Qed.


Lemma mapM_Ok_lookup_r {A B} (f : A → result B) l l' i b :
  mapM f l = Ok l' → l' !! i = Some b → ∃ a, l !! i = Some a ∧ f a = Ok b.
Proof.
  intros Hm Hb.
  exact (Forall2_lookup_r _ _ _ _ _ (mapM_Ok_Forall2 _ _ _ Hm) Hb).
Qed.

Lemma mapM_Ok_length {A B} (f : A → result B) l l' :
  mapM f l = Ok l' → length l' = length l.
Proof. intros Hm. symmetry. eapply Forall2_length, mapM_Ok_Forall2, Hm. Qed.

(** ** The derived columns *)



Lemma add_derived_inv df df' :
  add_derived df = Ok df' →
  ∃ loS hiS sS avgS loE hiE sE avgE cats,
    columns df !! "minimumSalary" = Some loS ∧
    columns df !! "maximumSalary" = Some hiS ∧
    series_add loS hiS = Ok sS ∧ series_div sS (qc 2) = Ok avgS ∧
    columns df !! "minimumExperience" = Some loE ∧
    columns df !! "maximumExperience" = Some hiE ∧
    series_add loE hiE = Ok sE ∧ series_div sE (qc 2) = Ok avgE ∧
    mapM categorize_experience avgE = Ok cats ∧
    df' = setitem (setitem (setitem df "avgSalary" avgS) "avgExperience" avgE)
            "experienceCategory" cats.
Proof.
  unfold add_derived. intros Hd. cbv zeta in Hd. inv_bind Hd.
  rewrite !getitem_setitem_ne in * by done.
  rewrite getitem_setitem_eq in *.
  rewrite getitem_Ok in *.
  simplify_eq. repeat eexists; eauto.
Qed.

Lemma load_data_Ok sheet page df' :
  load_data sheet = (page, Ok df') →
  ∃ df, sheet = ReadReturns df ∧ add_derived df = Ok df' ∧ page = [].
Proof.
  destruct sheet as [e|df]; simpl; [discriminate|].
  unfold lift. intros [= <- Hd]. eauto.
Qed.

Section Rows.
Variables (df df' : DataFrame).
Hypothesis Hwf : frame_wf df.
Hypothesis Hload : add_derived df = Ok df'.

Lemma loaded_nrows : nrows df' = nrows df.
Proof.
  destruct (add_derived_inv _ _ Hload) as (?&?&?&?&?&?&?&?&?&H'). decompose [and] H'.
  by subst.
Qed.



End Rows.


(** ** The experience bands *)

Lemma qc_le_iff (x : Qc) (k : Z) : (x ≤ qc k)%Qc ↔ (this x <= inject_Z k)%Q.
Proof. unfold Qcle, qc, Q2Qc, this. by rewrite Qred_correct. Qed.

Lemma qc_lt_iff (x : Qc) (k : Z) : (qc k < x)%Qc ↔ (inject_Z k < this x)%Q.
Proof. unfold Qclt, qc, Q2Qc, this. by rewrite Qred_correct. Qed.

Lemma categorize_Num x :
  categorize_experience (Num x) =
    Ok (Str (if bool_decide (x ≤ qc 1)%Qc then Fresher
             else if bool_decide (x ≤ qc 3)%Qc then Entry
             else if bool_decide (x ≤ qc 5)%Qc then Mid
             else if bool_decide (x ≤ qc 10)%Qc then Senior
             else Expert)).
Proof.
  unfold categorize_experience, cell_le.
  cbn [mbind result_bind].
  repeat (case_bool_decide; [done|]). done.
Qed.

Lemma categorize_Num_label x :
  ∃ l, l ∈ labels ∧ categorize_experience (Num x) = Ok (Str l).
Proof.
  rewrite categorize_Num. unfold labels.
  repeat case_bool_decide; eexists; (split; [|reflexivity]); set_solver.
Qed.

Lemma categorize_points :
  categorize_experience (Num (qc 1)) = Ok (Str Fresher) ∧
  categorize_experience (Num (Q2Qc (101 # 100))) = Ok (Str Entry) ∧
  categorize_experience (Num (qc 3)) = Ok (Str Entry) ∧
  categorize_experience (Num (Q2Qc (301 # 100))) = Ok (Str Mid) ∧
  categorize_experience (Num (qc 5)) = Ok (Str Mid) ∧
  categorize_experience (Num (qc 10)) = Ok (Str Senior) ∧
  categorize_experience (Num (Q2Qc (1001 # 100))) = Ok (Str Expert).
Proof. repeat split; vm_compute; reflexivity. Qed.

Lemma labels_distinct : NoDup [Fresher; Entry; Mid; Senior; Expert].
Proof. apply (bool_decide_unpack _). by vm_compute. Qed.

Lemma categorize_bands (x : Qc) :
  (categorize_experience (Num x) = Ok (Str Fresher) ↔ (x ≤ qc 1)%Qc) ∧
  (categorize_experience (Num x) = Ok (Str Entry) ↔ (qc 1 < x ∧ x ≤ qc 3)%Qc) ∧
  (categorize_experience (Num x) = Ok (Str Mid) ↔ (qc 3 < x ∧ x ≤ qc 5)%Qc) ∧
  (categorize_experience (Num x) = Ok (Str Senior) ↔ (qc 5 < x ∧ x ≤ qc 10)%Qc) ∧
  (categorize_experience (Num x) = Ok (Str Expert) ↔ (qc 10 < x)%Qc).
Proof.
  rewrite categorize_Num.
  repeat case_bool_decide; rewrite ?qc_le_iff, ?qc_lt_iff in *;
    unfold inject_Z in *;
    repeat split; intros; try discriminate; try reflexivity; try lra.
Qed.

(** C2. [categorize_experience] gives every number exactly one of the five
    labels: a number of [0,1] is Fresher, of (1,3] Entry, of (3,5] Mid, of
    (5,10] Senior and above 10 Expert, and each label is given to no other
    number, so the bands are disjoint and cover every number; 1, 3, 5 and 10
    fall in the lower band, 1.01, 3.01 and 10.01 in the upper one. *)
Theorem categorize_experience_bands (x : Qc) :
  (∃ l, l ∈ [Fresher; Entry; Mid; Senior; Expert] ∧
        categorize_experience (Num x) = Ok (Str l)) ∧
  NoDup [Fresher; Entry; Mid; Senior; Expert] ∧
  ((qc 0 ≤ x ∧ x ≤ qc 1)%Qc → categorize_experience (Num x) = Ok (Str Fresher)) ∧
  (categorize_experience (Num x) = Ok (Str Fresher) ↔ (x ≤ qc 1)%Qc) ∧
  (categorize_experience (Num x) = Ok (Str Entry) ↔ (qc 1 < x ∧ x ≤ qc 3)%Qc) ∧
  (categorize_experience (Num x) = Ok (Str Mid) ↔ (qc 3 < x ∧ x ≤ qc 5)%Qc) ∧
  (categorize_experience (Num x) = Ok (Str Senior) ↔ (qc 5 < x ∧ x ≤ qc 10)%Qc) ∧
  (categorize_experience (Num x) = Ok (Str Expert) ↔ (qc 10 < x)%Qc) ∧
  categorize_experience (Num (qc 1)) = Ok (Str Fresher) ∧
  categorize_experience (Num (Q2Qc (101 # 100))) = Ok (Str Entry) ∧
  categorize_experience (Num (qc 3)) = Ok (Str Entry) ∧
  categorize_experience (Num (Q2Qc (301 # 100))) = Ok (Str Mid) ∧
  categorize_experience (Num (qc 5)) = Ok (Str Mid) ∧
  categorize_experience (Num (qc 10)) = Ok (Str Senior) ∧
  categorize_experience (Num (Q2Qc (1001 # 100))) = Ok (Str Expert).
Proof.
  split; [exact (categorize_Num_label x)|].
  split; [exact labels_distinct|].
  destruct (categorize_bands x) as (HF & HE & HM & HS & HX).
  split; [intros [_ Hx]; by apply HF|].
  repeat (split; [assumption|]). exact categorize_points.
Qed.

(** ** Counting values *)

Lemma StronglySorted_mono {A} (R S : A → A → Prop) (l : list A) :
  (∀ x y, R x y → S x y) → StronglySorted R l → StronglySorted S l.
Proof.
  intros HRS. induction 1 as [|x l Hl IH Hx]; constructor; [done|].
  eapply Forall_impl; [exact Hx|]. intros y. apply HRS.
Qed.

Lemma elem_of_unique x l : x ∈ unique l ↔ x ∈ l.
Proof.
  induction l as [|y l IH]; simpl; [done|].
  rewrite !elem_of_cons, list_elem_of_filter, IH.
  destruct (decide (x = y)); naive_solver.
Qed.

Lemma NoDup_unique l : NoDup (unique l).
Proof.
  induction l as [|y l IH]; simpl; [constructor|].
  constructor; [|by apply NoDup_filter].
  rewrite list_elem_of_filter. naive_solver.
Qed.

Lemma count_of_cons x y l :
  count_of x (y :: l) = (if decide (y = x) then 1 else 0) + count_of x l.
Proof. unfold count_of. rewrite filter_cons. by destruct (decide (y = x)). Qed.

Lemma count_of_pos x l : 0 < count_of x l ↔ x ∈ l.
Proof.
  induction l as [|y l IH]; [unfold count_of; simpl; split; [lia|by intros ?%elem_of_nil]|].
  rewrite count_of_cons, elem_of_cons. destruct (decide (y = x)); [naive_solver lia|].
  rewrite <-IH. split; [intros; right; lia|intros [?|?]; [congruence|lia]].
Qed.

(** Summing [f] over a duplicate-free list, with one key taken out. *)
Lemma sum_split_key (f : cell → nat) x u :
  NoDup u →
  sum_list_with f u =
    (if decide (x ∈ u) then f x else 0) + sum_list_with f (filter (λ y, y ≠ x) u).
Proof.
  induction 1 as [|y u Hy Hu IH]; simpl.
  - by destruct (decide (x ∈ [])) as [?%elem_of_nil|].
  - rewrite filter_cons, IH. destruct (decide (y ≠ x)) as [Hne|Heq%dec_stable].
    + simpl. destruct (decide (x ∈ u)), (decide (x ∈ y :: u)) as [|Hn];
        rewrite ?elem_of_cons in *; try lia; naive_solver.
    + subst y. destruct (decide (x ∈ u)); [done|].
      destruct (decide (x ∈ x :: u)) as [|Hn]; [lia|]. set_solver.
Qed.

Lemma sum_count_of_unique l :
  sum_list_with (λ k, count_of k l) (unique l) = length l.
Proof.
  induction l as [|x l IH]; simpl; [done|].
  rewrite <-IH, count_of_cons. destruct (decide (x = x)); [|done].
  rewrite (sum_split_key (λ k, count_of k l) x (unique l)) by apply NoDup_unique.
  assert (sum_list_with (λ k, count_of k (x :: l)) (filter (λ y, y ≠ x) (unique l))
          = sum_list_with (λ k, count_of k l) (filter (λ y, y ≠ x) (unique l))) as ->.
  { generalize (unique l). intros u. induction u as [|y u IHu]; [done|].
    rewrite filter_cons. destruct (decide (y ≠ x)); [|done]. simpl.
    rewrite IHu, count_of_cons. destruct (decide (x = y)); [congruence|done]. }
  destruct (decide (x ∈ unique l)) as [|Hn]; [lia|].
  rewrite elem_of_unique in Hn. apply (not_iff_compat (count_of_pos x l)) in Hn. lia.
Qed.

Lemma elem_of_dropna x l : x ∈ dropna l ↔ x ≠ NaN ∧ x ∈ l.
Proof. unfold dropna. by rewrite list_elem_of_filter. Qed.

Lemma count_of_dropna x l : x ≠ NaN → count_of x (dropna l) = count_of x l.
Proof.
  intros Hx. unfold count_of, dropna. rewrite list_filter_filter.
  induction l as [|y l IH]; [done|]. rewrite !filter_cons.
  destruct (decide (y = x ∧ y ≠ NaN)), (decide (y = x)); simpl; naive_solver.
Qed.

Section ValueCounts.
Context `{Pandas}.

Lemma value_counts_perm col : value_counts col ≡ₚ tally col.
Proof. apply sort_by_perm. Qed.

Lemma count_ge_total (x y : cell * nat) : count_ge x y = true ∨ count_ge y x = true.
Proof.
  unfold count_ge. destruct (decide (y.2 ≤ x.2)).
  - left. by apply bool_decide_eq_true.
  - right. apply bool_decide_eq_true. lia.
Qed.

Lemma count_ge_trans (x y z : cell * nat) :
  count_ge x y = true → count_ge y z = true → count_ge x z = true.
Proof. unfold count_ge. rewrite !bool_decide_eq_true. lia. Qed.

Lemma value_counts_sorted col :
  StronglySorted (λ a b, b.2 ≤ a.2) (value_counts col).
Proof.
  eapply StronglySorted_mono; [|apply (sort_by_sorted count_ge)].
  - intros a b. unfold count_ge. by rewrite bool_decide_eq_true.
  - apply count_ge_total.
  - apply count_ge_trans.
Qed.

Lemma elem_of_tally k n col :
  (k, n) ∈ tally col ↔ k ≠ NaN ∧ k ∈ col ∧ n = count_of k col.
Proof.
  unfold tally. rewrite list_elem_of_fmap. split.
  - intros (k' & [= -> ->] & Hk). rewrite elem_of_unique, elem_of_dropna in Hk.
    destruct Hk as [Hk1 Hk2]. by rewrite count_of_dropna.
  - intros (Hk1 & Hk2 & ->). exists k. rewrite count_of_dropna by done.
    split; [done|]. by rewrite elem_of_unique, elem_of_dropna.
Qed.

Lemma elem_of_value_counts k n col :
  (k, n) ∈ value_counts col ↔ k ≠ NaN ∧ k ∈ col ∧ n = count_of k col.
Proof. by rewrite value_counts_perm, elem_of_tally. Qed.

Lemma tally_keys col : (tally col).*1 = unique (dropna col).
Proof. unfold tally. rewrite <-list_fmap_compose. apply list_fmap_id. Qed.

Lemma value_counts_keys col : (value_counts col).*1 ≡ₚ unique (dropna col).
Proof. by rewrite value_counts_perm, tally_keys. Qed.

Lemma value_counts_NoDup col : NoDup (value_counts col).*1.
Proof. rewrite value_counts_keys. apply NoDup_unique. Qed.

Lemma value_counts_length col :
  length (value_counts col) = length (unique (dropna col)).
Proof. by rewrite <-(length_fmap fst), value_counts_keys. Qed.

Lemma value_counts_sum col :
  sum_list (value_counts col).*2 = length (dropna col).
Proof.
  rewrite value_counts_perm. unfold tally.
  rewrite <-list_fmap_compose. rewrite <-sum_count_of_unique.
  generalize (unique (dropna col)). intros u.
  induction u as [|k u IH]; [done|]. cbn. f_equal. exact IH.
Qed.

End ValueCounts.

(** ** The experience categories of a loaded table *)

Lemma categorize_label e c :
  categorize_experience e = Ok c → ∃ l, l ∈ labels ∧ c = Str l.
Proof.
  destruct e as [|x|s]; [intros [= <-]| |discriminate].
  - exists Expert. split; [set_solver|done].
  - destruct (categorize_Num_label x) as (l & Hl & ->).
    intros [= <-]. eauto.
Qed.




Lemma loaded_categories df df' :
  frame_wf df → add_derived df = Ok df' →
  ∃ exps cats,
    getitem df' "avgExperience" = Ok exps ∧
    getitem df' "experienceCategory" = Ok cats ∧
    Forall2 (λ e c, categorize_experience e = Ok c) exps cats ∧
    length cats = nrows df' ∧ dropna cats = cats.
Proof.
  intros Hwf Hd.
  destruct (add_derived_inv _ _ Hd)
    as (loS&hiS&sS&avgS&loE&hiE&sE&avgE&cats&H1&H2&H3&H4&H5&H6&H7&H8&H9&->).
  exists avgE, cats.
  rewrite getitem_setitem_ne, !getitem_setitem_eq by done.
  pose proof (mapM_Ok_Forall2 _ _ _ H9) as HF.
  repeat split; try done.
  - rewrite (mapM_Ok_length _ _ _ H9), (mapM_Ok_length _ _ _ H8).
    unfold series_add in H7. rewrite (mapM_Ok_length _ _ _ H7).
    rewrite length_zip_with, (Hwf _ _ H5), (Hwf _ _ H6). simpl. lia.
  - unfold dropna. clear -HF. induction HF as [|e c exps cats Hc _ IH]; [done|].
    rewrite filter_cons, IH. destruct (categorize_label _ _ Hc) as (l & _ & ->).
    destruct (decide (Str l ≠ NaN)) as [|Hn]; [done|]. by destruct Hn.
Qed.

(** ** A three-row sheet *)

Lemma sample_sheet_wf : frame_wf sample_sheet.
Proof. apply (bool_decide_unpack _). by vm_compute. Qed.

Lemma sample_sheet_loads :
  load_data (ReadReturns sample_sheet) = ([], Ok sample_table).
Proof. by vm_compute. Qed.


(** ** The experience distribution ([create_chart8]) *)

Section Distribution.
Context `{Pandas}.
Variables (df df' : DataFrame) (page : list element).
Hypothesis Hwf : frame_wf df.
Hypothesis Hload : load_data (ReadReturns df) = (page, Ok df').

Lemma loaded_chart8 :
  ∃ exps cats,
    getitem df' "avgExperience" = Ok exps ∧
    getitem df' "experienceCategory" = Ok cats ∧
    create_chart8 df' = Ok (Chart8 (value_counts cats)) ∧
    Forall2 (λ e c, categorize_experience e = Ok c) exps cats ∧
    length cats = nrows df' ∧ dropna cats = cats.
Proof.
  destruct (load_data_Ok _ _ _ Hload) as (df0 & [= <-] & Hd & _).
  destruct (loaded_categories _ _ Hwf Hd) as (exps & cats & He & Hc & HF & Hl & Hn).
  exists exps, cats. repeat split; try done.
  unfold create_chart8. by rewrite Hc.
Qed.

End Distribution.

(** C6. The counts of the experience distribution of a loaded table add up
    to its number of rows. *)
Theorem experience_distribution_sum `{Pandas} df page df' :
  frame_wf df → load_data (ReadReturns df) = (page, Ok df') →
  ∃ dist, create_chart8 df' = Ok (Chart8 dist) ∧ sum_list dist.*2 = nrows df'.
Proof.
  intros Hwf Hload.
  destruct (loaded_chart8 _ _ _ Hwf Hload) as (exps & cats & _ & _ & H8 & _ & Hl & Hn).
  eexists. split; [exact H8|]. by rewrite value_counts_sum, Hn.
Qed.

Lemma experience_distribution_sum_witness :
  ∃ dist, create_chart8 (H:=stable_pandas) sample_table = Ok (Chart8 dist) ∧
          sum_list dist.*2 = nrows sample_table.
Proof.
  apply (experience_distribution_sum (H:=stable_pandas) sample_sheet [] sample_table).
  - exact sample_sheet_wf.
  - exact sample_sheet_loads.
Defined.

(** C5 (amended). The experience distribution of a loaded table has one entry
    for each label that occurs in [experienceCategory], with the number of
    its rows; every entry is one of the five labels with a count of at least
    one, and a label without rows has no entry. *)
Theorem experience_distribution_entries `{Pandas} df page df' :
  frame_wf df → load_data (ReadReturns df) = (page, Ok df') →
  ∃ cats dist,
    getitem df' "experienceCategory" = Ok cats ∧
    create_chart8 df' = Ok (Chart8 dist) ∧
    NoDup dist.*1 ∧
    (∀ k n, (k, n) ∈ dist ↔ k ∈ cats ∧ n = count_of k cats) ∧
    (∀ k n, (k, n) ∈ dist → 0 < n ∧ ∃ l, l ∈ labels ∧ k = Str l) ∧
    (∀ l, l ∈ labels → count_of (Str l) cats = 0 → Str l ∉ dist.*1).
Proof.
  intros Hwf Hload.
  destruct (loaded_chart8 _ _ _ Hwf Hload) as (exps & cats & _ & Hc & H8 & HF & Hl & Hn).
  exists cats, (value_counts cats). repeat (split; [done|]).
  split; [apply value_counts_NoDup|].
  assert (∀ k, k ∈ cats → ∃ l, l ∈ labels ∧ k = Str l) as Hlab.
  { intros k Hk. apply list_elem_of_lookup in Hk as [i Hi].
    destruct (Forall2_lookup_r _ _ _ _ _ HF Hi) as (e & _ & He).
    by eapply categorize_label. }
  assert (∀ k n, (k, n) ∈ value_counts cats ↔ k ∈ cats ∧ n = count_of k cats) as Hin.
  { intros k n. rewrite elem_of_value_counts. split; [naive_solver|].
    intros [Hk ->]. destruct (Hlab k Hk) as (l & _ & ->). done. }
  split; [exact Hin|]. split.
  - intros k n [Hk ->]%Hin. split; [by apply count_of_pos|by apply Hlab].
  - intros l _ H0 Hk. apply list_elem_of_fmap in Hk as ([k n] & Hk & Hkn).
    simpl in Hk. subst k. apply Hin in Hkn as [Hk _].
    apply count_of_pos in Hk. lia.
Qed.

Lemma experience_distribution_entries_witness :
  ∃ cats dist,
    getitem sample_table "experienceCategory" = Ok cats ∧
    create_chart8 (H:=stable_pandas) sample_table = Ok (Chart8 dist) ∧
    NoDup dist.*1 ∧
    (∀ k n, (k, n) ∈ dist ↔ k ∈ cats ∧ n = count_of k cats) ∧
    (∀ k n, (k, n) ∈ dist → 0 < n ∧ ∃ l, l ∈ labels ∧ k = Str l) ∧
    (∀ l, l ∈ labels → count_of (Str l) cats = 0 → Str l ∉ dist.*1).
Proof.
  apply (experience_distribution_entries (H:=stable_pandas) sample_sheet [] sample_table).
  - exact sample_sheet_wf.
  - exact sample_sheet_loads.
Defined.

(** C5 as claimed fails: in the three-row sheet no row is Mid or Senior, and
    the distribution has no entry for either band. *)
Lemma experience_distribution_omits_empty_bands :
  create_chart8 (H:=stable_pandas) sample_table =
    Ok (Chart8 [(Str Fresher, 1); (Str Entry, 1); (Str Expert, 1)]) ∧
  ¬ (∀ l, l ∈ labels →
       ∃ dist n, create_chart8 (H:=stable_pandas) sample_table = Ok (Chart8 dist) ∧
                 (Str l, n) ∈ dist).
Proof.
  split; [by vm_compute|].
  intros Hall. destruct (Hall Mid) as (dist & n & Hd & Hin); [set_solver|].
  vm_compute in Hd. injection Hd as <-.
  rewrite !elem_of_cons, elem_of_nil in Hin.
  destruct Hin as [Hin|[Hin|[Hin|[]]]]; discriminate Hin.
Qed.



(** ** The "Fresher Jobs" KPI *)

(** C3 (amended). On a table with rows, [fresher_pct] is the number of rows
    whose category is the Fresher label, divided by the number of rows, times
    100; on a table without rows the division raises [ZeroDivisionError]. *)
Theorem fresher_pct_spec df cats :
  getitem df "experienceCategory" = Ok cats →
  (nrows df ≠ 0 →
   fresher_pct df =
     Ok (qc (Z.of_nat (count_of (Str Fresher) cats))
         / qc (Z.of_nat (nrows df)) * qc 100)%Qc) ∧
  (nrows df = 0 → fresher_pct df = Raise ZeroDivisionError).
Proof.
  intros Hc. unfold fresher_pct. rewrite Hc. cbn [mbind result_bind].
  destruct (decide (nrows df = 0)); split; intros; done.
Qed.

Lemma fresher_pct_spec_witness :
  (nrows sample_table ≠ 0 →
   fresher_pct sample_table =
     Ok (qc (Z.of_nat (count_of (Str Fresher)
                         [Str Fresher; Str Entry; Str Expert]))
         / qc (Z.of_nat (nrows sample_table)) * qc 100)%Qc) ∧
  (nrows sample_table = 0 → fresher_pct sample_table = Raise ZeroDivisionError).
Proof.
  apply (fresher_pct_spec sample_table [Str Fresher; Str Entry; Str Expert]).
  by vm_compute.
Defined.

(** C3 as claimed fails: on the loaded empty sheet the KPI expression raises
    instead of returning 0 (and [main] has already stopped at the top-city
    KPI, one line earlier). *)
Lemma fresher_pct_empty_raises :
  load_data (ReadReturns empty_sheet) = ([], Ok empty_table) ∧
  nrows empty_table = 0 ∧
  fresher_pct empty_table = Raise ZeroDivisionError ∧
  fresher_pct empty_table ≠ Ok (qc 0) ∧
  (main (H:=stable_pandas) (ReadReturns empty_sheet)).2 = Raise IndexError.
Proof. repeat split; try (by vm_compute). Qed.

(** ** What [load_data] does when the sheet is unusable *)

Lemma bind_Raise {A B} (r : result A) (k : A → result B) (e : exn) :
  r ≫= k = Raise e → r = Raise e ∨ ∃ a, r = Ok a ∧ k a = Raise e.
Proof. destruct r as [a|e']; [eauto|intros [= ->]; by left]. Qed.

Lemma mapM_Raise {A B} (f : A → result B) l e :
  mapM f l = Raise e → ∃ a, a ∈ l ∧ f a = Raise e.
Proof.
  induction l as [|a l IH]; [discriminate|]. simpl.
  destruct (f a) as [b|e'] eqn:Hfa; simpl.
  - destruct (mapM f l) as [bs|e']; [discriminate|]. simpl.
    intros [= ->]. destruct IH as (a' & Ha' & Hf); [done|].
    exists a'. split; [by right|done].
  - intros [= ->]. exists a. split; [by left|done].
Qed.

Lemma getitem_Raise df c e : getitem df c = Raise e → load_exn e.
Proof.
  unfold getitem. destruct (columns df !! c); [discriminate|].
  intros [= <-]. right. eauto.
Qed.

Lemma series_add_Raise a b e : series_add a b = Raise e → load_exn e.
Proof.
  intros ([x y] & _ & Hxy)%mapM_Raise. left.
  destruct x, y; simpl in Hxy; congruence.
Qed.

Lemma series_div_Raise a d e : series_div a d = Raise e → load_exn e.
Proof.
  intros (x & _ & Hx)%mapM_Raise. left. destruct x; simpl in Hx; congruence.
Qed.

Lemma categorize_Raise x e : categorize_experience x = Raise e → load_exn e.
Proof.
  destruct x as [|q|s]; [discriminate| |intros [= <-]; by left].
  by rewrite categorize_Num.
Qed.

Lemma add_derived_Raise df e : add_derived df = Raise e → load_exn e.
Proof.
  unfold add_derived. intros Hd.
  repeat match type of Hd with
  | _ ≫= _ = Raise _ =>
      apply bind_Raise in Hd as [Hd|(? & _ & Hd)]; cbv beta zeta in Hd;
      [first [by eapply getitem_Raise | by eapply series_add_Raise
             | by eapply series_div_Raise
             | apply mapM_Raise in Hd as (? & _ & Hd); by eapply categorize_Raise]|]
  end.
  discriminate.
Qed.

Lemma add_derived_needs_bounds df c :
  c ∈ bound_columns → columns df !! c = None → ∃ e, add_derived df = Raise e.
Proof.
  intros Hc Hnone. destruct (add_derived df) as [df'|e] eqn:Hd; [|eauto].
  destruct (add_derived_inv _ _ Hd)
    as (loS&hiS&sS&avgS&loE&hiE&sE&avgE&cats&H1&H2&H3&H4&H5&H6&H7&H8&H9&->).
  unfold bound_columns in Hc. rewrite !elem_of_cons, elem_of_nil in Hc.
  destruct Hc as [->|[->|[->|[->|[]]]]]; congruence.
Qed.

(** C4 (amended). When [read_excel] raises, [main] writes the error message
    and stops, and nothing else reaches the page.  When the sheet lacks one
    of the four bound columns, [load_data] raises ([KeyError], or [TypeError]
    from an earlier bound column that holds text) and [main] ends with an
    empty page.  Whether the other columns are present is not looked at by
    [load_data]. *)
Theorem load_failure_stops_main `{Pandas} :
  (∀ e, main (ReadRaises e) =
        ([StError (String.append "Failed to load data from Google Sheets: " e)],
         Raise StopException)) ∧
  (∀ df c, c ∈ bound_columns → columns df !! c = None →
     ∃ e, load_exn e ∧
          load_data (ReadReturns df) = ([], Raise e) ∧
          main (ReadReturns df) = ([], Raise e)).
Proof.
  split; [reflexivity|].
  intros df c Hc Hnone.
  destruct (add_derived_needs_bounds df c Hc Hnone) as [e He].
  exists e. split; [by eapply add_derived_Raise|].
  unfold main, load_data, lift. rewrite He. by split.
Qed.

(** C4 as claimed fails: a sheet that lacks the required [title] column is
    loaded, the five KPIs are computed and written, and only [create_chart1]
    raises. *)
Lemma missing_title_renders_partial_page :
  columns untitled_sheet !! "title" = None ∧
  (∃ df, load_data (ReadReturns untitled_sheet) = ([], Ok df)) ∧
  main (H:=stable_pandas) (ReadReturns untitled_sheet) =
    ([Header;
      Metric "Total Jobs" (Num (qc 3));
      Metric "Avg Salary" (Num (Q2Qc (11 # 4)));
      Metric "Avg Exp (yrs)" (Num (Q2Qc (31 # 6)));
      Metric "Top City" (Str "X");
      Metric "Fresher Jobs" (Num (Q2Qc (100 # 3)))],
     Raise (KeyError "title")).
Proof.
  split; [by vm_compute|]. split; [eexists; by vm_compute|].
  apply (bool_decide_unpack _). by vm_compute.
Qed.

(** ** The top titles ([create_chart1]) *)

Lemma StronglySorted_take {A} (R : A → A → Prop) n (l : list A) :
  StronglySorted R l → StronglySorted R (take n l).
Proof.
  intros Hs. rewrite <-(take_drop n l) in Hs. by apply StronglySorted_app_1_l in Hs.
Qed.

Lemma StronglySorted_take_drop {A} (R : A → A → Prop) n (l : list A) x y :
  StronglySorted R l → x ∈ take n l → y ∈ drop n l → R x y.
Proof.
  intros Hs. rewrite <-(take_drop n l) in Hs.
  by apply StronglySorted_app_1_elem_of.
Qed.

Lemma StronglySorted_lookup {A} (R : A → A → Prop) (l : list A) i j x y :
  StronglySorted R l → i < j → l !! i = Some x → l !! j = Some y → R x y.
Proof.
  intros Hs. revert i j. induction Hs as [|a l Hs IH Ha]; intros i j Hij Hi Hj.
  - by rewrite lookup_nil in Hi.
  - destruct j as [|j]; [lia|]. destruct i as [|i]; simpl in *.
    + injection Hi as ->. rewrite Forall_forall in Ha. apply Ha.
      by eapply list_elem_of_lookup_2.
    + eapply (IH i j); [lia|done..].
Qed.




(** ** The tie rule under the stable routine *)

Lemma lookup_pair_sublist {A} (l : list A) i j a b :
  i < j → l !! i = Some a → l !! j = Some b → [a; b] `sublist_of` l.
Proof.
  revert i j. induction l as [|x l IH]; intros i j Hij Hi Hj.
  - by rewrite lookup_nil in Hi.
  - destruct j as [|j]; [lia|]. destruct i as [|i]; simpl in *.
    + injection Hi as ->. apply sublist_skip, singleton_sublist_l.
      by eapply list_elem_of_lookup_2.
    + apply sublist_cons. eapply (IH i j); [lia|done..].
Qed.

Section Stability.
Context {A : Type} (le : A → A → bool).

Lemma insert_sorted_before x r a b :
  [a; b] `sublist_of` insert_sorted le x r → le b a = true →
  [a; b] `sublist_of` r ∨ (a = x ∧ b ∈ r).
Proof.
  intros Hsub Hba. induction r as [|y r IH]; simpl in Hsub.
  - apply sublist_length in Hsub. simpl in Hsub. lia.
  - destruct (le x y) eqn:Hxy.
    + apply sublist_cons_r in Hsub as [Hsub|(l' & [= -> <-] & Hsub)]; [by left|].
      right. split; [done|]. by apply singleton_sublist_l.
    + apply sublist_cons_r in Hsub as [Hsub|(l' & [= -> <-] & Hsub)].
      * destruct (IH Hsub) as [Hr|[-> Hb]].
        -- left. by apply sublist_cons.
        -- right. split; [done|]. by right.
      * apply singleton_sublist_l in Hsub.
        rewrite insert_sorted_perm in Hsub. apply elem_of_cons in Hsub as [->|Hb].
        -- congruence.
        -- left. by apply sublist_skip, singleton_sublist_l.
Qed.

Lemma insertion_sort_stable l a b :
  [a; b] `sublist_of` insertion_sort le l → le b a = true →
  [a; b] `sublist_of` l.
Proof.
  intros Hsub Hba. induction l as [|x l IH]; simpl in Hsub.
  - apply sublist_length in Hsub. simpl in Hsub. lia.
  - destruct (insert_sorted_before _ _ _ _ Hsub Hba) as [Hr|[-> Hb]].
    + by apply sublist_cons, IH.
    + rewrite insertion_sort_perm in Hb. by apply sublist_skip, singleton_sublist_l.
Qed.

End Stability.

Lemma first_appearance_cons k x l :
  first_appearance k (x :: l) =
    if decide (x = k) then Some 0 else S <$> first_appearance k l.
Proof.
  unfold first_appearance. simpl. destruct (decide (x = k)); [done|].
  by destruct (list_find (λ y, y = k) l) as [[i y]|].
Qed.

Lemma unique_dropna_order k1 k2 l p q :
  [k1; k2] `sublist_of` unique (dropna l) →
  first_appearance k1 l = Some p → first_appearance k2 l = Some q → p < q.
Proof.
  revert p q. induction l as [|x l IH]; intros p q Hsub Hp Hq; [done|].
  rewrite first_appearance_cons in Hp, Hq.
  assert (∀ k, k ∈ unique (dropna l) → x ≠ k →
            [k1; k2] `sublist_of` unique (dropna l) →
            ∃ p' q', first_appearance k1 l = Some p' ∧
                     first_appearance k2 l = Some q' ∧ p' < q') as Hrec.
  { intros _ _ _ Hs. pose proof (sublist_subseteq _ _ Hs) as Hin.
    assert (k1 ∈ l ∧ k2 ∈ l) as [H1 H2].
    { split; apply (elem_of_dropna _ l), elem_of_unique, Hin; set_solver. }
    destruct (first_appearance k1 l) as [p'|] eqn:E1; [
    destruct (first_appearance k2 l) as [q'|] eqn:E2|].
    - exists p', q'. repeat split. by apply IH.
    - unfold first_appearance in E2. apply fmap_None, list_find_None in E2.
      rewrite Forall_forall in E2. by destruct (E2 k2).
    - unfold first_appearance in E1. apply fmap_None, list_find_None in E1.
      rewrite Forall_forall in E1. by destruct (E1 k1). }
  unfold dropna in Hsub. rewrite filter_cons in Hsub. fold (dropna l) in Hsub.
  destruct (decide (x ≠ NaN)) as [Hx|Hx%dec_stable].
  - simpl in Hsub. apply sublist_cons_r in Hsub as [Hsub|(l' & [= -> <-] & Hsub)].
    + pose proof (sublist_subseteq _ _ Hsub) as Hin.
      assert (x ≠ k1 ∧ x ≠ k2) as [Hn1 Hn2].
      { split; intros <-.
        - assert (x ∈ [x; k2]) as Hx'%Hin by set_solver.
          apply list_elem_of_filter in Hx'. naive_solver.
        - assert (x ∈ [k1; x]) as Hx'%Hin by set_solver.
          apply list_elem_of_filter in Hx'. naive_solver. }
      destruct (decide (x = k1)), (decide (x = k2)); try done.
      assert ([k1; k2] `sublist_of` unique (dropna l)) as Hs'.
      { etransitivity; [exact Hsub|]. apply sublist_filter. }
      destruct (Hrec k1) as (p' & q' & E1 & E2 & Hlt); try done.
      { apply (sublist_subseteq _ _ Hs'). set_solver. }
      rewrite E1 in Hp. rewrite E2 in Hq. simplify_eq/=. lia.
    + apply singleton_sublist_l, list_elem_of_filter in Hsub as [Hne Hin].
      destruct (decide (x = x)); [|done]. destruct (decide (x = k2)); [done|].
      simplify_eq. destruct (first_appearance k2 l); simplify_eq/=. lia.
  - subst x. pose proof (sublist_subseteq _ _ Hsub) as Hin.
    assert (NaN ≠ k1 ∧ NaN ≠ k2) as [Hn1 Hn2].
    { split; intros <-.
      - assert (NaN ∈ [NaN; k2]) as Hx'%Hin by set_solver.
        apply elem_of_unique, elem_of_dropna in Hx'. naive_solver.
      - assert (NaN ∈ [k1; NaN]) as Hx'%Hin by set_solver.
        apply elem_of_unique, elem_of_dropna in Hx'. naive_solver. }
    destruct (decide (NaN = k1)), (decide (NaN = k2)); try done.
    destruct (Hrec k1) as (p' & q' & E1 & E2 & Hlt); try done.
    { apply Hin. set_solver. }
    rewrite E1 in Hp. rewrite E2 in Hq. simplify_eq/=. lia.
Qed.

(** With the stable routine, titles of equal count come in the order of
    their first appearance. *)
Lemma stable_ties_by_first_appearance df title tc :
  getitem df "title" = Ok title →
  create_chart1 (H:=stable_pandas) df = Ok (Chart1 tc) →
  ties_by_first_appearance title tc.
Proof.
  intros Ht Hc. unfold create_chart1 in Hc. rewrite Ht in Hc.
  assert (tc = take 10 (insertion_sort count_ge (tally title))) as ->.
  { cbn [mbind result_bind] in Hc. by injection Hc as <-. }
  intros i j a b p q Hij Hi Hj Heq Hp Hq.
  assert ([a; b] `sublist_of` tally title) as Hsub.
  { apply (insertion_sort_stable count_ge).
    - etransitivity; [by eapply lookup_pair_sublist|]. apply sublist_take.
    - unfold count_ge. apply bool_decide_eq_true. lia. }
  apply (fmap_sublist fst) in Hsub. rewrite tally_keys in Hsub.
  exact (unique_dropna_order _ _ _ _ _ Hsub Hp Hq).
Qed.

(** ** The top companies ([create_chart6]) *)

Lemma numbers_numeric l : Forall numeric l → ∃ xs, numbers l = Ok xs.
Proof.
  induction 1 as [|c l Hc _ [xs IH]]; [by eexists|].
  destruct c as [|x|s]; simpl; [eauto|rewrite IH; simpl; eauto|by destruct (Hc s)].
Qed.


Lemma series_mean_numeric l : Forall numeric l → ∃ m, series_mean l = Ok m.
Proof.
  intros [xs Hxs]%numbers_numeric. unfold series_mean. rewrite Hxs. simpl. eauto.
Qed.








Section TopCompanies.
Context `{Pandas}.





End TopCompanies.

Lemma series_div_numeric s d avg : series_div s d = Ok avg → Forall numeric avg.
Proof.
  intros Hd. apply Forall_forall. intros c Hc.
  apply list_elem_of_lookup in Hc as [i Hi].
  destruct (mapM_Ok_lookup_r _ _ _ _ _ Hd Hi) as (a & _ & Ha).
  destruct a; simpl in Ha; simplify_eq; by intros s'.
Qed.

Lemma loaded_salary df df' :
  frame_wf df → add_derived df = Ok df' →
  frame_wf df' ∧
  ∃ vals, getitem df' "avgSalary" = Ok vals ∧ Forall numeric vals.
Proof.
  intros Hwf Hd.
  destruct (add_derived_inv _ _ Hd)
    as (loS&hiS&sS&avgS&loE&hiE&sE&avgE&cats&H1&H2&H3&H4&H5&H6&H7&H8&H9&->).
  assert (∀ lo hi s avg c1 c2, columns df !! c1 = Some lo → columns df !! c2 = Some hi →
            series_add lo hi = Ok s → series_div s (qc 2) = Ok avg →
            length avg = nrows df) as Hlen.
  { intros lo hi s avg c1 c2 Hlo Hhi Hs Ha.
    rewrite (mapM_Ok_length _ _ _ Ha). unfold series_add in Hs.
    rewrite (mapM_Ok_length _ _ _ Hs), length_zip_with, (Hwf _ _ Hlo), (Hwf _ _ Hhi).
    lia. }
  split.
  - unfold frame_wf, setitem; simpl.
    repeat apply map_Forall_insert_2; try done.
    + rewrite (mapM_Ok_length _ _ _ H9). eapply Hlen; [exact H5|exact H6|done..].
    + eapply Hlen; [exact H5|exact H6|done..].
    + eapply Hlen; [exact H1|exact H2|done..].
  - exists avgS. rewrite !getitem_setitem_ne, getitem_setitem_eq by done.
    split; [done|]. by eapply series_div_numeric.
Qed.




(** ** The skill words ([create_wordcloud]) *)

Lemma chars_append s t : chars (String.append s t) = chars s ++ chars t.
Proof. induction s as [|c s IH]; [done|]. simpl. by rewrite IH. Qed.

Lemma lower_char_word c : is_word_char (lower_char c) = is_word_char c.
Proof. destruct c as [[] [] [] [] [] [] [] []]; reflexivity. Qed.


Lemma lower_append s t :
  lower (String.append s t) = String.append (lower s) (lower t).
Proof. induction s as [|c s IH]; [done|]. simpl. by rewrite IH. Qed.



Lemma flush_lower r : flush (lower r) = lower <$> flush r.
Proof. by destruct r. Qed.

Lemma runs_lower r s : runs (lower r) (lower s) = lower <$> runs r s.
Proof.
  revert r. induction s as [|c s IH]; intros r; simpl; [apply flush_lower|].
  rewrite lower_char_word. destruct (is_word_char c).
  - rewrite <-IH. by rewrite lower_append.
  - rewrite fmap_app, <-flush_lower. f_equal. apply (IH EmptyString).
Qed.

Lemma word_runs_lower s : word_runs (lower s) = lower <$> word_runs s.
Proof. apply (runs_lower EmptyString). Qed.

Lemma runs_app_space r s t :
  runs r (String.append s (String " " t)) = runs r s ++ runs EmptyString t.
Proof.
  revert r. induction s as [|c s IH]; intros r; simpl; [done|].
  destruct (is_word_char c); [apply IH|]. by rewrite IH, app_assoc.
Qed.

Lemma runs_word r s w :
  Forall (λ c, is_word_char c = true) (chars r) →
  w ∈ runs r s →
  Forall (λ c, is_word_char c = true) (chars w) ∧ w ≠ EmptyString.
Proof.
  revert r. induction s as [|c s IH]; intros r Hr; simpl.
  - destruct r; [by intros ?%elem_of_nil|]. by intros ->%list_elem_of_singleton.
  - destruct (is_word_char c) eqn:Hc.
    + apply IH. rewrite chars_append. apply Forall_app. split; [done|].
      by repeat constructor.
    + rewrite elem_of_app. intros [Hw|Hw].
      * destruct r; [by apply elem_of_nil in Hw|].
        by apply list_elem_of_singleton in Hw as ->.
      * apply (IH EmptyString); [constructor|done].
Qed.

Lemma word_runs_word s w :
  w ∈ word_runs s →
  Forall (λ c, is_word_char c = true) (chars w) ∧ w ≠ EmptyString.
Proof. apply runs_word. constructor. Qed.

(** [' '.join] of the pieces splits into the words of each piece. *)
Lemma word_runs_join (l : list string) :
  word_runs (String.concat " " l) = l ≫= word_runs.
Proof.
  induction l as [|s l IH]; [done|].
  destruct l as [|s' l].
  - simpl. by rewrite app_nil_r.
  - change (String.concat " " (s :: s' :: l))
      with (String.append s (String " " (String.concat " " (s' :: l)))).
    unfold word_runs at 1. rewrite runs_app_space.
    fold (word_runs (String.concat " " (s' :: l))). by rewrite IH.
Qed.

Lemma lower_concat sep l :
  lower (String.concat sep l) = String.concat (lower sep) (lower <$> l).
Proof.
  induction l as [|s l IH]; [done|]. destruct l as [|s' l]; [done|].
  change (String.concat sep (s :: s' :: l))
    with (String.append s (String.append sep (String.concat sep (s' :: l)))).
  rewrite !lower_append, IH. done.
Qed.

Lemma string_of_list_ascii_snoc l c :
  string_of_list_ascii (l ++ [c]) =
    String.append (string_of_list_ascii l) (String c EmptyString).
Proof. induction l as [|a l IH]; [done|]. simpl. by rewrite IH. Qed.

Lemma word_prefix_spec acc s taken rest :
  word_prefix acc s = (taken, rest) →
  is_word_opt (first_char rest) = false ∧
  String.length rest ≤ String.length s ∧
  (taken = acc ∧ rest = s ∨
   String.length rest < String.length s ∧ ∃ c taken', taken = c :: taken' ∧ is_word_char c = true) ∧
  runs (string_of_list_ascii (rev acc)) s = runs (string_of_list_ascii (rev taken)) rest.
Proof.
  revert acc. induction s as [|c s IH]; intros acc; simpl.
  - intros [= <- <-]. split; [done|]. split; [done|]. split; [by left|done].
  - destruct (is_word_char c) eqn:Hc.
    + intros Hw. destruct (IH _ Hw) as (Hf & Hl & Hcase & Hr).
      split; [done|]. split; [lia|]. split.
      * right. destruct Hcase as [[-> ->]|(Hlt & c' & t' & -> & Hc')].
        -- split; [lia|]. eauto.
        -- split; [lia|]. eauto.
      * rewrite <-Hr. simpl. by rewrite string_of_list_ascii_snoc.
    + intros [= <- <-]. simpl. rewrite Hc.
      split; [done|]. split; [done|]. split; [by left|done].
Qed.

Lemma runs_stop r rest :
  is_word_opt (first_char rest) = false →
  runs r rest = flush r ++ runs EmptyString rest.
Proof.
  destruct rest as [|c rest]; simpl.
  - intros _. by rewrite app_nil_r.
  - by intros ->.
Qed.

Lemma scan_runs fuel prev s :
  String.length s < fuel →
  (is_word_opt prev = true → is_word_opt (first_char s) = false) →
  scan fuel prev s = runs EmptyString s.
Proof.
  revert prev s. induction fuel as [|fuel IH]; intros prev s Hfuel Hinv; [lia|].
  simpl. unfold match_here, boundary.
  destruct (word_prefix [] s) as [taken rest] eqn:Hw.
  destruct (word_prefix_spec _ _ _ _ Hw) as (Hstop & Hlen & Hcase & Hruns).
  destruct (is_word_opt (first_char s)) eqn:Hfirst.
  - (* a word starts here *)
    destruct (is_word_opt prev); [by specialize (Hinv eq_refl)|]. simpl.
    destruct Hcase as [[-> ->]|(Hlt & c & taken' & -> & Hc)]; [congruence|].
    simpl. unfold boundary. simpl. rewrite Hc, Hstop. simpl.
    rewrite IH; [|lia|done]. simpl in Hruns. rewrite Hruns.
    rewrite string_of_list_ascii_snoc.
    rewrite (runs_stop (String.append _ _)) by done.
    by destruct (string_of_list_ascii (rev taken')).
  - (* no word starts here *)
    assert (taken = [] ∧ rest = s) as [-> ->].
    { destruct s as [|c s]; [by injection Hw as <- <-|].
      simpl in Hw, Hfirst. rewrite Hfirst in Hw. by injection Hw as <- <-. }
    assert (match (if xorb (is_word_opt prev) false then backtrack [] s else None) with
            | Some (w, rest) => w :: scan fuel (last_char w) rest
            | None => match s with
                      | EmptyString => []
                      | String c s' => scan fuel (Some c) s'
                      end
            end = match s with
                  | EmptyString => []
                  | String c s' => scan fuel (Some c) s'
                  end) as -> by (by destruct (xorb (is_word_opt prev) false)).
    destruct s as [|c s]; [done|]. simpl in Hfirst, Hfuel. simpl. rewrite Hfirst.
    simpl. apply IH; [lia|]. simpl. congruence.
Qed.

Lemma re_findall_word_runs s : re_findall s = word_runs s.
Proof. apply scan_runs; [lia|done]. Qed.


Section SkillWords.
Context `{Pandas}.

Lemma skill_words_cells text_data :
  skill_words text_data = filter (λ c, c ≠ NaN) text_data ≫= cell_words.
Proof.
  unfold skill_words. cbv zeta. rewrite re_findall_word_runs.
  rewrite lower_concat. change (lower " ") with " ".
  rewrite word_runs_join.
  generalize (filter (λ c, c ≠ NaN) text_data). intros l.
  induction l as [|c l IH]; [done|].
  cbn [map fmap list_fmap mbind list_bind]. rewrite filter_app.
  unfold cell_words at 1. rewrite <-word_runs_lower. f_equal. exact IH.
Qed.

End SkillWords.



(** ** The whole page for the three-row sheet *)

(** The page that [main] renders for the three-row sheet: five KPIs and five
    charts; the second row, with a mean experience of 3, is Entry level. *)
Lemma main_sample_page :
  main (H:=stable_pandas) (ReadReturns sample_sheet) =
    ([Header;
      Metric "Total Jobs" (Num (qc 3));
      Metric "Avg Salary" (Num (Q2Qc (11 # 4)));
      Metric "Avg Exp (yrs)" (Num (Q2Qc (31 # 6)));
      Metric "Top City" (Str "X");
      Metric "Fresher Jobs" (Num (Q2Qc (100 # 3)));
      Pyplot (Chart1 [(Str "A", 2); (Str "B", 1)]);
      Pyplot (Chart2 [(Str "X", 2); (Str "Y", 1)]);
      Pyplot (Chart3 (Some "python sql machine_learning aws"));
      Pyplot (Chart6 ["Bolt"; "Acme"; "Hush"]
                [(Str "Bolt", Some (qc 4000)); (Str "Acme", Some (qc 1500));
                 (Str "Hush", None)]);
      Pyplot (Chart8 [(Str Fresher, 1); (Str Entry, 1); (Str Expert, 1)]);
      Footer],
     Ok tt).
Proof. apply (bool_decide_unpack _). by vm_compute. Qed.

(** * Further properties of the pipeline *)

(** ** What [load_data] keeps and adds *)

(** [load_data] returns the sheet with its rows and columns as they were,
    plus the three derived columns (a column of the sheet that bears one of
    the three names is replaced); every column of the result spans the
    rows. *)
Theorem load_data_keeps_sheet df page df' :
  frame_wf df → load_data (ReadReturns df) = (page, Ok df') →
  page = [] ∧ nrows df' = nrows df ∧ frame_wf df' ∧
  (∀ c, c ∉ derived_columns → columns df' !! c = columns df !! c) ∧
  (∀ c, c ∈ derived_columns → is_Some (columns df' !! c)) ∧
  dom (columns df') = dom (columns df) ∪ list_to_set derived_columns.
Proof.
  intros Hwf Hload.
  destruct (load_data_Ok _ _ _ Hload) as (df0 & [= <-] & Hd & ->).
  split; [done|]. split; [by apply loaded_nrows|].
  split; [by apply (loaded_salary df df')|].
  destruct (add_derived_inv _ _ Hd)
    as (loS&hiS&sS&avgS&loE&hiE&sE&avgE&cats&H1&H2&H3&H4&H5&H6&H7&H8&H9&->).
  unfold derived_columns, setitem; simpl. split; [|split].
  - intros c Hc. rewrite !elem_of_cons, elem_of_nil in Hc.
    rewrite !lookup_insert_ne; [done|naive_solver..].
  - intros c Hc. rewrite !elem_of_cons, elem_of_nil in Hc.
    destruct Hc as [->|[->|[->|[]]]].
    + by rewrite lookup_insert_ne, lookup_insert_ne, lookup_insert_eq.
    + by rewrite lookup_insert_ne, lookup_insert_eq.
    + by rewrite lookup_insert_eq.
  - rewrite !dom_insert_L. set_solver.
Qed.

Lemma load_data_keeps_sheet_witness :
  @nil element = [] ∧ nrows sample_table = nrows sample_sheet ∧ frame_wf sample_table ∧
  (∀ c, c ∉ derived_columns → columns sample_table !! c = columns sample_sheet !! c) ∧
  (∀ c, c ∈ derived_columns → is_Some (columns sample_table !! c)) ∧
  dom (columns sample_table) = dom (columns sample_sheet) ∪ list_to_set derived_columns.
Proof.
  apply (load_data_keeps_sheet sample_sheet [] sample_table).
  - exact sample_sheet_wf.
  - exact sample_sheet_loads.
Defined.

(** Loading a loaded table changes nothing: the derived columns are computed
    from the bounds, which the load leaves alone. *)
Theorem add_derived_idempotent df df' :
  add_derived df = Ok df' → add_derived df' = Ok df'.
Proof.
  intros Hd.
  destruct (add_derived_inv _ _ Hd)
    as (loS&hiS&sS&avgS&loE&hiE&sE&avgE&cats&H1&H2&H3&H4&H5&H6&H7&H8&H9&->).
  apply getitem_Ok in H1, H2, H5, H6.
  unfold add_derived.
  rewrite !getitem_setitem_ne by done. rewrite H1, H2. cbn [mbind result_bind].
  rewrite H3. cbn [mbind result_bind]. rewrite H4. cbn [mbind result_bind].
  rewrite !getitem_setitem_ne by done. rewrite H5, H6. cbn [mbind result_bind].
  rewrite H7. cbn [mbind result_bind]. rewrite H8. cbn [mbind result_bind].
  rewrite getitem_setitem_eq. cbn [mbind result_bind].
  rewrite H9. cbn [mbind result_bind].
  f_equal. unfold setitem; simpl. f_equal.
  apply map_eq. intros c. rewrite !lookup_insert.
  repeat case_decide; simplify_eq; done.
Qed.

Lemma add_derived_idempotent_witness : add_derived sample_table = Ok sample_table.
Proof. apply (add_derived_idempotent sample_sheet). by vm_compute. Defined.

(** ** When [load_data] succeeds *)






(** ** Bounds on the derived numbers *)

Lemma this_qc z : this (qc z) = inject_Z z.
Proof. unfold qc, Q2Qc, this. apply Qred_identity. simpl. apply Z.gcd_1_r. Qed.


Lemma Qc_percentage_bounds (c n : nat) :
  c ≤ n → n ≠ 0 →
  (qc 0 ≤ qc (Z.of_nat c) / qc (Z.of_nat n) * qc 100 ∧
   qc (Z.of_nat c) / qc (Z.of_nat n) * qc 100 ≤ qc 100)%Qc.
Proof.
  intros Hcn Hn.
  unfold Qcle, Qcdiv, Qcmult, Qcinv, Q2Qc, this.
  rewrite !Qred_correct.
  fold (this (qc 0)) (this (qc 100)) (this (qc (Z.of_nat c))) (this (qc (Z.of_nat n))).
  rewrite !this_qc.
  assert (0 < inject_Z (Z.of_nat n))%Q as Hpos.
  { unfold Qlt, inject_Z. simpl. lia. }
  assert (0 <= inject_Z (Z.of_nat c) / inject_Z (Z.of_nat n))%Q as H0.
  { apply Qle_shift_div_l; [done|]. unfold Qle, inject_Z. simpl. lia. }
  assert (inject_Z (Z.of_nat c) / inject_Z (Z.of_nat n) <= 1)%Q as H1.
  { apply Qle_shift_div_r; [done|]. unfold Qle, inject_Z. simpl. lia. }
  unfold Qdiv in H0, H1.
  set (q := (inject_Z (Z.of_nat c) * / inject_Z (Z.of_nat n))%Q) in *.
  change (inject_Z 0) with 0%Q. change (inject_Z 100) with 100%Q. split; lra.
Qed.



(** On a loaded table with at least one row the "Fresher Jobs" KPI is a
    percentage: a number from 0 to 100. *)
Theorem fresher_pct_is_percentage df page df' :
  frame_wf df → load_data (ReadReturns df) = (page, Ok df') → nrows df' ≠ 0 →
  ∃ p, fresher_pct df' = Ok p ∧ (qc 0 ≤ p ∧ p ≤ qc 100)%Qc.
Proof.
  intros Hwf Hload Hn.
  destruct (load_data_Ok _ _ _ Hload) as (df0 & [= <-] & Hd & _).
  destruct (loaded_categories _ _ Hwf Hd) as (exps & cats & _ & Hc & _ & Hl & _).
  unfold fresher_pct. rewrite Hc. cbn [mbind result_bind].
  destruct (decide (nrows df' = 0)); [done|].
  eexists. split; [reflexivity|].
  apply Qc_percentage_bounds; [|done].
  rewrite <-Hl. apply length_filter.
Qed.

Lemma fresher_pct_is_percentage_witness :
  ∃ p, fresher_pct sample_table = Ok p ∧ (qc 0 ≤ p ∧ p ≤ qc 100)%Qc.
Proof.
  apply (fresher_pct_is_percentage sample_sheet [] sample_table).
  - exact sample_sheet_wf.
  - exact sample_sheet_loads.
  - by vm_compute.
Defined.

(** ** The bands are ordered *)

Lemma band_index_label x :
  ∃ l, labels !! band_index x = Some l ∧ categorize_experience (Num x) = Ok (Str l).
Proof.
  rewrite categorize_Num. unfold band_index.
  repeat case_bool_decide; eexists; (split; [reflexivity|done]).
Qed.

Lemma band_index_mono x y : (x ≤ y)%Qc → band_index x ≤ band_index y.
Proof.
  intros Hxy. unfold band_index.
  repeat case_bool_decide; try lia;
    rewrite ?qc_le_iff in *; unfold Qcle in Hxy; unfold inject_Z in *; lra.
Qed.

(** More experience never gives a lower band: for [x <= y] the label of [x]
    comes no later than the label of [y] in the order Fresher, Entry, Mid,
    Senior, Expert. *)
Theorem categorize_experience_monotone (x y : Qc) :
  (x ≤ y)%Qc →
  ∃ lx ly i j,
    categorize_experience (Num x) = Ok (Str lx) ∧
    categorize_experience (Num y) = Ok (Str ly) ∧
    labels !! i = Some lx ∧ labels !! j = Some ly ∧ i ≤ j.
Proof.
  intros Hxy.
  destruct (band_index_label x) as (lx & Hix & Hx).
  destruct (band_index_label y) as (ly & Hiy & Hy).
  exists lx, ly, (band_index x), (band_index y).
  repeat (split; [done|]). by apply band_index_mono.
Qed.

Lemma categorize_experience_monotone_witness :
  ∃ lx ly i j,
    categorize_experience (Num (qc 2)) = Ok (Str lx) ∧
    categorize_experience (Num (qc 7)) = Ok (Str ly) ∧
    labels !! i = Some lx ∧ labels !! j = Some ly ∧ i ≤ j.
Proof.
  apply (categorize_experience_monotone (qc 2) (qc 7)).
  apply (bool_decide_unpack _). by vm_compute.
Defined.

(** ** The top city and the cities chart *)

Section TopCity.
Context `{Pandas}.

Lemma unique_nil l : unique l = [] ↔ l = [].
Proof. by destruct l. Qed.

Lemma value_counts_nil col : value_counts col = [] ↔ dropna col = [].
Proof.
  rewrite <-unique_nil, <-!length_zero_iff_nil. by rewrite value_counts_length.
Qed.

(** The first [n] entries of [value_counts]. *)
Lemma head_value_counts_spec n col :
  let vc := head n (value_counts col) in
  length vc = min n (length (unique (dropna col))) ∧
  NoDup vc.*1 ∧
  (∀ k c, (k, c) ∈ vc → k ≠ NaN ∧ k ∈ col ∧ c = count_of k col) ∧
  (∀ i j a b, i < j → vc !! i = Some a → vc !! j = Some b → b.2 ≤ a.2) ∧
  (∀ k a, k ∈ col → k ≠ NaN → k ∉ vc.*1 → a ∈ vc → count_of k col ≤ a.2).
Proof.
  intros vc. unfold vc, head.
  pose proof (value_counts_sorted col) as Hs.
  split; [by rewrite length_take, value_counts_length|].
  split.
  { rewrite fmap_take. eapply sublist_NoDup; [apply value_counts_NoDup|].
    apply sublist_take. }
  split.
  { intros k c (i & Hk%list_elem_of_lookup_2 & _)%elem_of_take.
    by apply elem_of_value_counts. }
  split.
  { intros i j a b Hij Hi Hj.
    eapply (StronglySorted_lookup _ _ i j a b (StronglySorted_take _ n _ Hs)); done. }
  intros k a Hk Hn Hout Ha.
  assert ((k, count_of k col) ∈ value_counts col) as Hin
    by (by apply elem_of_value_counts).
  rewrite <-(take_drop n (value_counts col)) in Hin.
  apply elem_of_app in Hin as [Hin|Hin].
  - destruct Hout. apply list_elem_of_fmap. by exists (k, count_of k col).
  - apply (StronglySorted_take_drop _ n _ a (k, count_of k col) Hs Ha Hin).
Qed.

(** The head of [value_counts] is a value with the most cells. *)
Lemma value_counts_head col k c rest :
  value_counts col = (k, c) :: rest →
  k ≠ NaN ∧ k ∈ col ∧ c = count_of k col ∧
  ∀ k', k' ≠ NaN → count_of k' col ≤ count_of k col.
Proof.
  intros Hvc.
  assert ((k, c) ∈ value_counts col) as Hin by (rewrite Hvc; by left).
  apply elem_of_value_counts in Hin as (Hne & Hk & ->).
  repeat (split; [done|]). intros k' Hne'.
  destruct (decide (k' ∈ col)) as [Hk'|Hk'].
  - assert ((k', count_of k' col) ∈ value_counts col) as Hin'
      by (by apply elem_of_value_counts).
    pose proof (value_counts_sorted col) as Hs. rewrite Hvc in Hs, Hin'.
    apply elem_of_cons in Hin' as [[= -> _]|Hin']; [done|].
    apply StronglySorted_inv in Hs as [_ Hall].
    rewrite Forall_forall in Hall. exact (Hall _ Hin').
  - apply (not_iff_compat (count_of_pos k' col)) in Hk'. lia.
Qed.

End TopCity.

(** The "Top City" KPI.  Without a [location] column it raises [KeyError];
    when no row has a location it raises [IndexError]; otherwise it is a
    location with the most rows, and it is the first bar of the cities
    chart. *)
Theorem top_city_spec `{Pandas} df :
  (columns df !! "location" = None → top_city df = Raise (KeyError "location")) ∧
  (∀ location, getitem df "location" = Ok location →
     (dropna location = [] → top_city df = Raise IndexError) ∧
     (dropna location ≠ [] →
      ∃ k rest,
        top_city df = Ok k ∧ k ≠ NaN ∧ k ∈ location ∧
        (∀ k', k' ≠ NaN → count_of k' location ≤ count_of k location) ∧
        create_chart2 df = Ok (Chart2 ((k, count_of k location) :: rest)))).
Proof.
  split.
  - intros Hnone. unfold top_city, getitem. by rewrite Hnone.
  - intros location Hl. unfold top_city, create_chart2. rewrite Hl.
    cbn [mbind result_bind]. split.
    + intros Hnil%value_counts_nil. by rewrite Hnil.
    + intros Hne. destruct (value_counts location) as [|[k c] rest] eqn:Hvc.
      { by apply value_counts_nil in Hvc. }
      destruct (value_counts_head _ _ _ _ Hvc) as (Hk1 & Hk2 & -> & Hmax).
      exists k, (take 9 rest). by repeat split.
Qed.

(** The cities chart: at most 10 bars, one per city, each with the number of
    rows of that city, in descending order of that number; a city without a
    bar has no more rows than any city with one.  Without a [location]
    column the chart raises [KeyError]. *)
Theorem top_cities_spec `{Pandas} df :
  (columns df !! "location" = None → create_chart2 df = Raise (KeyError "location")) ∧
  (∀ location, getitem df "location" = Ok location →
     ∃ cc, create_chart2 df = Ok (Chart2 cc) ∧
       length cc = min 10 (length (unique (dropna location))) ∧
       NoDup cc.*1 ∧
       (∀ k c, (k, c) ∈ cc → k ≠ NaN ∧ k ∈ location ∧ c = count_of k location) ∧
       (∀ i j a b, i < j → cc !! i = Some a → cc !! j = Some b → b.2 ≤ a.2) ∧
       (∀ k a, k ∈ location → k ≠ NaN → k ∉ cc.*1 → a ∈ cc →
               count_of k location ≤ a.2)).
Proof.
  split.
  - intros Hnone. unfold create_chart2, getitem. by rewrite Hnone.
  - intros location Hl. exists (head 10 (value_counts location)).
    unfold create_chart2. rewrite Hl. split; [done|].
    apply head_value_counts_spec.
Qed.

(** ** The mean of a column ([Series.mean] in the two average KPIs) *)







(** ** Rounding of the company means ([round(0)]) *)

Lemma this_Q2Qc q : (this (Q2Qc q) == q)%Q.
Proof. unfold Q2Qc, this. apply Qred_correct. Qed.

Lemma this_minus (x y : Qc) : (this (x - y)%Qc == this x - this y)%Q.
Proof. unfold Qcminus, Qcplus, Qcopp. by rewrite !this_Q2Qc. Qed.

Lemma this_plus (x y : Qc) : (this (x + y)%Qc == this x + this y)%Q.
Proof. unfold Qcplus. by rewrite this_Q2Qc. Qed.

(** [round(0)] gives a whole number at distance at most one half, and leaves
    whole numbers as they are. *)
Theorem round_half_even_spec (x : Qc) :
  (∃ z, round_half_even x = qc z ∧
        (x - Q2Qc (1 # 2) ≤ qc z ∧ qc z ≤ x + Q2Qc (1 # 2))%Qc) ∧
  (∀ z, round_half_even (qc z) = qc z).
Proof.
  split.
  - unfold round_half_even. set (f := Qfloor x).
    pose proof (Qfloor_le x) as Hlo. pose proof (Qlt_floor x) as Hhi.
    fold f in Hlo, Hhi. rewrite inject_Z_plus in Hhi. change (inject_Z 1) with 1%Q in Hhi.
    assert (∀ z, (x - Q2Qc (1 # 2) ≤ qc z ∧ qc z ≤ x + Q2Qc (1 # 2))%Qc ↔
                 (this x - (1 # 2) <= inject_Z z ∧ inject_Z z <= this x + (1 # 2))%Q) as Hq.
    { intros z. unfold Qcle. by rewrite this_minus, this_plus, this_Q2Qc, this_qc. }
    case_bool_decide as H1; [|case_bool_decide as H2].
    + exists f. split; [done|]. apply Hq.
      unfold Qclt in H1. rewrite this_minus, this_Q2Qc, this_qc in H1. split; lra.
    + exists (f + 1)%Z. split; [done|]. apply Hq. rewrite inject_Z_plus.
      change (inject_Z 1) with 1%Q.
      unfold Qclt in H2. rewrite this_minus, this_Q2Qc, this_qc in H2. split; lra.
    + assert (this x - inject_Z f == 1 # 2)%Q as Heq.
      { apply Qcnot_lt_le in H1, H2. unfold Qcle in H1, H2.
        rewrite this_minus, this_Q2Qc, this_qc in H1, H2. lra. }
      destruct (Z.even f); eexists; (split; [reflexivity|]); apply Hq;
        rewrite ?inject_Z_plus; change (inject_Z 1) with 1%Q; split; lra.
  - intros z. unfold round_half_even.
    rewrite this_qc, Qfloor_Z.
    assert ((qc z - qc z)%Qc = 0%Qc) as -> by apply Qcplus_opp_r.
    by rewrite bool_decide_eq_true_2.
Qed.

(** ** The tick labels of the companies chart *)




(** ** The word cloud ([create_wordcloud], [create_chart3]) *)

Lemma lower_char_idem c : lower_char (lower_char c) = lower_char c.
Proof. destruct c as [[] [] [] [] [] [] [] []]; reflexivity. Qed.

Lemma lower_idem s : lower (lower s) = lower s.
Proof. induction s as [|c s IH]; [done|]. simpl. by rewrite lower_char_idem, IH. Qed.

Lemma append_empty_r r : String.append r EmptyString = r.
Proof.
  induction r as [|a r IH]; [done|].
  change (String a (String.append r EmptyString) = String a r). by f_equal.
Qed.

Lemma append_snoc r c w :
  String.append (String.append r (String c EmptyString)) w
  = String.append r (String c w).
Proof.
  induction r as [|a r IH]; [done|].
  change (String a (String.append (String.append r (String c EmptyString)) w)
          = String a (String.append r (String c w))). by f_equal.
Qed.

Lemma runs_all_word r w :
  Forall (λ c, is_word_char c = true) (chars w) →
  runs r w = flush (String.append r w).
Proof.
  revert r. induction w as [|c w IH]; intros r Hw.
  - simpl. by rewrite append_empty_r.
  - inversion Hw as [|? ? Hc Hw']; subst. simpl. rewrite Hc, IH by done.
    by rewrite append_snoc.
Qed.

Lemma word_runs_word_id w :
  Forall (λ c, is_word_char c = true) (chars w) → w ≠ EmptyString →
  word_runs w = [w].
Proof.
  intros Hw Hne. unfold word_runs. rewrite runs_all_word by done. by destruct w.
Qed.

Section WordCloud.
Context `{Pandas}.

Lemma skill_words_word text_data w :
  w ∈ skill_words text_data →
  Forall (λ c, is_word_char c = true) (chars w) ∧ w ≠ EmptyString.
Proof.
  unfold skill_words. cbv zeta. rewrite list_elem_of_filter, re_findall_word_runs.
  intros [_ Hw]. by apply word_runs_word in Hw.
Qed.

Lemma cell_words_lower c : cell_words (lower_cell c) = cell_words c.
Proof.
  destruct c as [|x|s]; [done..|]. unfold cell_words. simpl.
  by rewrite <-word_runs_lower, lower_idem, word_runs_lower.
Qed.


End WordCloud.

(** The skill words do not depend on the casing of the text: putting every
    cell in lower case first gives the same words. *)
Theorem skill_words_case_insensitive `{Pandas} (text_data : list cell) :
  skill_words (lower_cell <$> text_data) = skill_words text_data.
Proof.
  rewrite !skill_words_cells.
  induction text_data as [|c l IH]; [done|].
  rewrite fmap_cons, !filter_cons.
  destruct (decide (lower_cell c ≠ NaN)) as [H1|H1], (decide (c ≠ NaN)) as [H2|H2].
  - cbn [mbind list_bind]. by rewrite IH, cell_words_lower.
  - destruct c; [by destruct H1|by destruct H2..].
  - destruct c; [by destruct H2|by destruct H1..].
  - exact IH.
Qed.

Lemma create_wordcloud_None `{Pandas} (text_data : list cell) :
  create_wordcloud text_data = None ↔ skill_words text_data = [].
Proof.
  unfold create_wordcloud. destruct text_data as [|c l]; [done|].
  by destruct (skill_words (c :: l)).
Qed.

(** [create_wordcloud] returns nothing exactly when no skill word is left
    (in particular for an empty column); otherwise it returns a text whose
    words, read back with the same pattern, are exactly the skill words, in
    order. *)
Theorem create_wordcloud_spec `{Pandas} (text_data : list cell) :
  (create_wordcloud text_data = None ↔ skill_words text_data = []) ∧
  (∀ text, create_wordcloud text_data = Some text →
           skill_words text_data ≠ [] ∧ re_findall text = skill_words text_data).
Proof.
  assert (word_runs (String.concat " " (skill_words text_data))
          = skill_words text_data) as Hround.
  { rewrite word_runs_join.
    assert (Forall (λ w, Forall (λ c, is_word_char c = true) (chars w) ∧
                         w ≠ EmptyString) (skill_words text_data)) as Hall.
    { apply Forall_forall. intros w. apply skill_words_word. }
    induction Hall as [|w ws [Hw Hne] _ IH]; [done|].
    cbn [mbind list_bind]. by rewrite IH, word_runs_word_id. }
  split; [apply create_wordcloud_None|].
  unfold create_wordcloud. destruct text_data as [|c l]; [done|].
  destruct (skill_words (c :: l)) as [|w ws] eqn:Hs; [discriminate|].
  intros text [= <-]. split; [done|]. by rewrite re_findall_word_runs.
Qed.


(** ** The page of [main] *)

Section Page.
Context `{Pandas}.

Lemma main_render sheet : main sheet = load_data sheet ≫= render.
Proof. reflexivity. Qed.

Lemma main_loaded df df' :
  add_derived df = Ok df' → main (ReadReturns df) = render df'.
Proof.
  intros Hd. rewrite main_render. unfold load_data, lift. rewrite Hd.
  unfold mbind, script_bind. cbn [fst snd app]. by destruct (render df').
Qed.

Lemma main_not_loaded df e :
  add_derived df = Raise e → main (ReadReturns df) = ([], Raise e).
Proof. intros Hd. rewrite main_render. unfold load_data, lift. by rewrite Hd. Qed.

(** One step of the page: a computation, then the rest. *)
Lemma script_step {A} (r : result A) (k : A → script unit) :
  lift r ≫= k = match r with Ok a => k a | Raise e => ([], Raise e) end.
Proof.
  destruct r as [a|e]; [|done]. unfold mbind, script_bind, lift.
  cbn [fst snd app]. by destruct (k a).
Qed.

Lemma script_emit (x : element) (k : script unit) :
  (emit x;; k) = (x :: k.1, k.2).
Proof. reflexivity. Qed.

End Page.

Lemma quiet_emit x k :
  (∀ msg, x ≠ StError msg) → quiet k → quiet (emit x;; k).
Proof.
  intros Hx [Hp Hr]. rewrite script_emit. split; [|done].
  intros msg [Heq|Hin]%elem_of_cons; [by eapply Hx|by eapply Hp].
Qed.

Lemma quiet_step {A} (r : result A) (k : A → script unit) :
  (∀ e, r = Raise e → e ≠ StopException) → (∀ a, r = Ok a → quiet (k a)) →
  quiet (lift r ≫= k).
Proof.
  intros He Ha. rewrite script_step. destruct r as [a|e]; [by apply Ha|].
  split; [by intros msg ?%elem_of_nil|]. simpl. intros [= ->]. by eapply He.
Qed.

Lemma numbers_Raise l e : numbers l = Raise e → e = TypeError.
Proof.
  induction l as [|c l IH]; [discriminate|]. destruct c; simpl; [done| |congruence].
  destruct (numbers l); [discriminate|]. simpl. intros [= <-]. by apply IH.
Qed.

Lemma series_mean_Raise l e : series_mean l = Raise e → e = TypeError.
Proof.
  unfold series_mean. destruct (numbers l) eqn:Hn; [discriminate|].
  simpl. intros [= <-]. by eapply numbers_Raise.
Qed.

Section Quiet.
Context `{Pandas}.

Lemma column_mean_Raise df c e :
  getitem df c ≫= series_mean = Raise e → e ≠ StopException.
Proof.
  unfold getitem. destruct (columns df !! c); simpl; [|by intros [= <-]].
  by intros ->%series_mean_Raise.
Qed.

Lemma top_city_Raise df e : top_city df = Raise e → e ≠ StopException.
Proof.
  unfold top_city, getitem. destruct (columns df !! "location"); simpl;
    [|by intros [= <-]].
  destruct (value_counts _) as [|[k c] rest]; [by intros [= <-]|discriminate].
Qed.

Lemma fresher_pct_Raise df e : fresher_pct df = Raise e → e ≠ StopException.
Proof.
  unfold fresher_pct, getitem. destruct (columns df !! "experienceCategory"); simpl;
    [|by intros [= <-]].
  destruct (decide (nrows df = 0)); [by intros [= <-]|discriminate].
Qed.

Lemma create_chart1_Raise df e : create_chart1 df = Raise e → e ≠ StopException.
Proof.
  unfold create_chart1, getitem. destruct (columns df !! "title"); simpl;
    [discriminate|by intros [= <-]].
Qed.

Lemma create_chart2_Raise df e : create_chart2 df = Raise e → e ≠ StopException.
Proof.
  unfold create_chart2, getitem. destruct (columns df !! "location"); simpl;
    [discriminate|by intros [= <-]].
Qed.

Lemma create_chart3_Raise df e : create_chart3 df = Raise e → e ≠ StopException.
Proof.
  unfold create_chart3, getitem. destruct (columns df !! "tagsAndSkills"); simpl;
    [discriminate|by intros [= <-]].
Qed.

Lemma create_chart8_Raise df e : create_chart8 df = Raise e → e ≠ StopException.
Proof.
  unfold create_chart8, getitem. destruct (columns df !! "experienceCategory"); simpl;
    [discriminate|by intros [= <-]].
Qed.

Lemma groupby_mean_Raise keys vals e :
  groupby_mean keys vals = Raise e → e = TypeError.
Proof.
  unfold groupby_mean. intros (k & _ & Hk)%mapM_Raise.
  destruct (series_mean _) eqn:Hm; [discriminate|].
  simpl in Hk. injection Hk as <-. by eapply series_mean_Raise.
Qed.

Lemma create_chart6_Raise df e : create_chart6 df = Raise e → e ≠ StopException.
Proof.
  unfold create_chart6, company_salary, getitem.
  destruct (columns df !! "companyName"); simpl; [|by intros [= <-]].
  destruct (columns df !! "avgSalary"); simpl; [|by intros [= <-]].
  destruct (groupby_mean _ _) eqn:Hg; simpl;
    [|intros [= <-]; by rewrite (groupby_mean_Raise _ _ _ Hg)].
  destruct (mapM tick_label _) eqn:Hl; simpl; [discriminate|].
  intros [= <-]. apply mapM_Raise in Hl as (k & _ & Hk).
  destruct k; simpl in Hk; by simplify_eq.
Qed.

Lemma render_quiet df : quiet (render df).
Proof.
  unfold render.
  repeat first
    [ apply quiet_emit; [done|]
    | apply quiet_step;
        [ first [ apply column_mean_Raise | apply top_city_Raise
                | apply fresher_pct_Raise | apply create_chart1_Raise
                | apply create_chart2_Raise | apply create_chart3_Raise
                | apply create_chart6_Raise | apply create_chart8_Raise ]
        | intros ? _ ] ].
  split; [|done]. simpl. intros msg Hin. set_solver.
Qed.

End Quiet.

(** The error box and [st.stop()] belong to a failed read only: when the read
    returns a sheet, whatever happens afterwards, [main] shows no error box
    and does not end by [st.stop()]; an exception of the load or of a KPI or
    chart ends the run as it is. *)
Theorem main_error_box_iff_read_fails `{Pandas} :
  (∀ e, ∃ msg, main (ReadRaises e) = ([StError msg], Raise StopException)) ∧
  (∀ df, (∀ msg, StError msg ∉ (main (ReadReturns df)).1) ∧
         (main (ReadReturns df)).2 ≠ Raise StopException).
Proof.
  split; [intros e; by eexists|].
  intros df. destruct (add_derived df) as [df'|e] eqn:Hd.
  - rewrite (main_loaded _ _ Hd). apply render_quiet.
  - rewrite (main_not_loaded _ _ Hd). split; [by intros msg ?%elem_of_nil|].
    simpl. intros [= ->]. by destruct (add_derived_Raise _ _ Hd) as [?|[? ?]].
Qed.

Section LoadedPage.
Context `{Pandas}.

Lemma loaded_means df df' :
  frame_wf df → add_derived df = Ok df' →
  ∃ s e, getitem df' "avgSalary" ≫= series_mean = Ok s ∧
         getitem df' "avgExperience" ≫= series_mean = Ok e.
Proof.
  intros Hwf Hd.
  destruct (loaded_salary _ _ Hwf Hd) as (_ & vals & Hv & Hnum).
  destruct (loaded_categories _ _ Hwf Hd) as (exps & cats & He & _ & HF & _).
  destruct (series_mean_numeric vals Hnum) as [s Hs].
  destruct (series_mean_numeric exps) as [e Hm].
  { apply Forall_forall. intros c Hc. apply list_elem_of_lookup in Hc as [i Hi].
    destruct (Forall2_lookup_l _ _ _ _ _ HF Hi) as (l & _ & Hl).
    intros t ->. discriminate Hl. }
  exists s, e. rewrite Hv, He. by split.
Qed.

Lemma sort_by_nil {A} (le : A → A → bool) : sort_by le [] = [].
Proof. apply Permutation_nil_r. apply sort_by_perm. Qed.


End LoadedPage.

(** Once the load has succeeded, the header, the number of rows and the two
    average KPIs are always on the page, whatever fails afterwards. *)
Theorem main_first_kpis `{Pandas} df page df' :
  frame_wf df → load_data (ReadReturns df) = (page, Ok df') →
  ∃ s e rest r,
    getitem df' "avgSalary" ≫= series_mean = Ok s ∧
    getitem df' "avgExperience" ≫= series_mean = Ok e ∧
    main (ReadReturns df) =
      (Header :: Metric "Total Jobs" (Num (qc (Z.of_nat (nrows df)))) ::
       Metric "Avg Salary" (of_float (float_div s (qc 1000))) ::
       Metric "Avg Exp (yrs)" (of_float e) :: rest, r).
Proof.
  intros Hwf Hload.
  destruct (load_data_Ok _ _ _ Hload) as (df0 & [= <-] & Hd & _).
  destruct (loaded_means _ _ Hwf Hd) as (s & e & Hs & He).
  rewrite (main_loaded _ _ Hd). unfold render.
  rewrite !script_emit, Hs, script_step, script_emit, He, script_step, script_emit.
  rewrite (loaded_nrows _ _ Hd). by do 4 eexists.
Qed.

Lemma main_first_kpis_witness :
  ∃ s e rest r,
    getitem sample_table "avgSalary" ≫= series_mean = Ok s ∧
    getitem sample_table "avgExperience" ≫= series_mean = Ok e ∧
    main (H:=stable_pandas) (ReadReturns sample_sheet) =
      (Header :: Metric "Total Jobs" (Num (qc (Z.of_nat (nrows sample_sheet)))) ::
       Metric "Avg Salary" (of_float (float_div s (qc 1000))) ::
       Metric "Avg Exp (yrs)" (of_float e) :: rest, r).
Proof.
  apply (main_first_kpis (H:=stable_pandas) sample_sheet [] sample_table).
  - exact sample_sheet_wf.
  - exact sample_sheet_loads.
Defined.

(** A sheet without rows: the load succeeds, the page gets the header, a row
    count of 0 and two NaN averages, and the "Top City" KPI ends the run
    with [IndexError] ([KeyError] when there is no [location] column). *)
Theorem main_empty_sheet `{Pandas} df page df' :
  frame_wf df → nrows df = 0 → load_data (ReadReturns df) = (page, Ok df') →
  main (ReadReturns df) =
    ([Header; Metric "Total Jobs" (Num (qc 0));
      Metric "Avg Salary" NaN; Metric "Avg Exp (yrs)" NaN],
     Raise (if decide (is_Some (columns df !! "location"))
            then IndexError else KeyError "location")).
Proof.
  intros Hwf Hn Hload.
  destruct (load_data_Ok _ _ _ Hload) as (df0 & [= <-] & Hd & _).
  destruct (loaded_salary _ _ Hwf Hd) as (Hwf' & _).
  pose proof (loaded_nrows _ _ Hd) as Hn'. rewrite Hn in Hn'.
  assert (∀ c col, columns df' !! c = Some col → col = []) as Hnil.
  { intros c col Hc. apply length_zero_iff_nil. by rewrite (Hwf' _ _ Hc). }
  destruct (add_derived_inv _ _ Hd)
    as (loS&hiS&sS&avgS&loE&hiE&sE&avgE&cats&H1&H2&H3&H4&H5&H6&H7&H8&H9&Hdf').
  assert (getitem df' "avgSalary" = Ok []) as HS.
  { destruct (getitem df' "avgSalary") as [col|] eqn:E.
    - apply getitem_Ok in E. by rewrite (Hnil _ _ E).
    - subst df'.
      by rewrite getitem_setitem_ne, getitem_setitem_ne, getitem_setitem_eq in E by done. }
  assert (getitem df' "avgExperience" = Ok []) as HE.
  { destruct (getitem df' "avgExperience") as [col|] eqn:E.
    - apply getitem_Ok in E. by rewrite (Hnil _ _ E).
    - subst df'. by rewrite getitem_setitem_ne, getitem_setitem_eq in E by done. }
  assert (columns df' !! "location" = columns df !! "location") as Hloc.
  { subst df'. unfold setitem; simpl. by rewrite !lookup_insert_ne. }
  assert (getitem df' "avgSalary" ≫= series_mean = Ok None) as HS'
    by (by rewrite HS).
  assert (getitem df' "avgExperience" ≫= series_mean = Ok None) as HE'
    by (by rewrite HE).
  assert (top_city df' = Raise (if decide (is_Some (columns df !! "location"))
                                then IndexError else KeyError "location")) as HT.
  { unfold top_city, getitem. rewrite Hloc.
    destruct (columns df !! "location") as [loc|] eqn:El.
    - rewrite (Hnil _ _ Hloc). cbn [mbind result_bind].
      unfold value_counts, dropna. simpl. by rewrite sort_by_nil.
    - case_decide as Hs; [|done]. by destruct Hs. }
  rewrite (main_loaded _ _ Hd). unfold render.
  rewrite !script_emit, HS', script_step, script_emit, HE', script_step, script_emit.
  by rewrite Hn', HT, script_step.
Qed.

Lemma main_empty_sheet_witness :
  main (H:=stable_pandas) (ReadReturns empty_sheet) =
    ([Header; Metric "Total Jobs" (Num (qc 0));
      Metric "Avg Salary" NaN; Metric "Avg Exp (yrs)" NaN],
     Raise (if decide (is_Some (columns empty_sheet !! "location"))
            then IndexError else KeyError "location")).
Proof.
  apply (main_empty_sheet (H:=stable_pandas) empty_sheet [] empty_table).
  - apply (bool_decide_unpack _). by vm_compute.
  - reflexivity.
  - by vm_compute.
Defined.


